(** * WordSeer: the frequent-words controller

    A shallow embedding of
    [src/app/wordseer/static/wordseer_app/controller/FrequentWordsController.js]
    and the properties of its handlers: the lollipop render pass, the
    group-by-stem and order-by-score toggles, the overlay guard and the
    slice loader.

    Numbers. A JavaScript number is embedded as an exact rational extended
    with the two infinities and not-a-number ([num]).  Rounding, overflow and
    the sign of zero are outside the embedding: [1/0] is [+Infinity] and every
    finite result is exact.  What the program holds is the double nearest to
    the exact value; [F64] rounds an exact number to that double and runs
    the scale in double arithmetic, for the statements that depend on the
    rounding. *)

From stdpp Require Import gmap strings list numbers sorting.
From Stdlib Require Import Ascii String QArith Qcanon.
From Stdlib Require PrimFloat SpecFloat FloatOps.

Local Open Scope Z_scope.

(** ** JavaScript values *)

Module JS.

Inductive num : Type :=
  | Fin (q : Qc)
  | PInf
  | NInf
  | NaN.

Global Instance num_eq_dec : EqDecision num.
Proof. solve_decision. Defined.

Definition of_Z (z : Z) : num := Fin (Qc_of_Z z).

Definition is_zero (q : Qc) : bool := bool_decide (q = 0%Qc).
Definition is_pos (q : Qc) : bool := bool_decide (0 < q)%Qc.

(** [-x] *)
Definition neg (x : num) : num :=
  match x with
  | Fin q => Fin (- q)%Qc
  | PInf => NInf
  | NInf => PInf
  | NaN => NaN
  end.

(** [x + y] *)
Definition add (x y : num) : num :=
  match x, y with
  | NaN, _ | _, NaN => NaN
  | Fin p, Fin q => Fin (p + q)%Qc
  | PInf, NInf | NInf, PInf => NaN
  | PInf, _ | _, PInf => PInf
  | NInf, _ | _, NInf => NInf
  end.

(** [x - y] *)
Definition sub (x y : num) : num := add x (neg y).

(** The infinity with the sign of [q] times the sign of [pos]; a zero [q]
    makes the product not-a-number. *)
Definition inf_times (pos : bool) (q : Qc) : num :=
  if is_zero q then NaN
  else if Bool.eqb (is_pos q) pos then PInf else NInf.

(** [x * y] *)
Definition mul (x y : num) : num :=
  match x, y with
  | NaN, _ | _, NaN => NaN
  | Fin p, Fin q => Fin (p * q)%Qc
  | PInf, Fin q | Fin q, PInf => inf_times true q
  | NInf, Fin q | Fin q, NInf => inf_times false q
  | PInf, PInf | NInf, NInf => PInf
  | PInf, NInf | NInf, PInf => NInf
  end.

(** [x / y] *)
Definition div (x y : num) : num :=
  match x, y with
  | NaN, _ | _, NaN => NaN
  | Fin p, Fin q =>
      if is_zero q then inf_times true p else Fin (p / q)%Qc
  | Fin _, (PInf | NInf) => Fin 0%Qc
  | PInf, Fin q => if is_zero q || is_pos q then PInf else NInf
  | NInf, Fin q => if is_zero q || is_pos q then NInf else PInf
  | (PInf | NInf), (PInf | NInf) => NaN
  end.

(** [x > y] *)
Definition gtb (x y : num) : bool :=
  match x, y with
  | NaN, _ | _, NaN => false
  | Fin p, Fin q => bool_decide (q < p)%Qc
  | PInf, PInf => false
  | PInf, _ => true
  | _, NInf => match x with NInf => false | _ => true end
  | _, _ => false
  end.

(** [x >= y] *)
Definition geb (x y : num) : bool :=
  match x, y with
  | NaN, _ | _, NaN => false
  | _, _ => negb (gtb y x)
  end.

(** The primitive values.  Objects are not embedded: where the code reads
    a value that could be one, the statements below speak of primitives. *)
Inductive value : Type :=
  | VUndefined
  | VNull
  | VBool (b : bool)
  | VNumber (n : num)
  | VString (s : string).

Global Instance value_eq_dec : EqDecision value.
Proof. solve_decision. Defined.

(** A property read [o.p] on an object held as a finite map: an absent
    property reads as [undefined]. *)
Definition get (o : gmap string value) (p : string) : value :=
  default VUndefined (o !! p).

(** *** String to number

    The [StringNumericLiteral] grammar of the language: optional white space
    around an optionally signed decimal literal (digits, fraction, exponent,
    [Infinity]) or an unsigned [0x], [0o] or [0b] integer; the empty string
    is [0] and anything else is not-a-number.  A literal beyond the range of
    the doubles reads as [Infinity], one below it as 0. *)

Definition is_ws (c : ascii) : bool :=
  let n := nat_of_ascii c in
  bool_decide (n = 32 ∨ 9 ≤ n ≤ 13)%nat.

(** A string holds the UTF-8 bytes of its text.  The white space beyond
    ASCII takes two or three bytes: U+00A0; U+1680, U+2000 to U+200A,
    U+2028, U+2029, U+202F, U+205F, U+3000 and U+FEFF. *)
Definition is_ws2 (c1 c2 : ascii) : bool :=
  bool_decide (N_of_ascii c1 = 194 ∧ N_of_ascii c2 = 160)%N.

Definition is_ws3 (c1 c2 c3 : ascii) : bool :=
  let '(a, b, c) := (N_of_ascii c1, N_of_ascii c2, N_of_ascii c3) in
  bool_decide
    ((a = 225 ∧ b = 154 ∧ c = 128)
     ∨ (a = 226 ∧ b = 128 ∧ (128 ≤ c ≤ 138 ∨ c = 168 ∨ c = 169 ∨ c = 175))
     ∨ (a = 226 ∧ b = 129 ∧ c = 159)
     ∨ (a = 227 ∧ b = 128 ∧ c = 128)
     ∨ (a = 239 ∧ b = 187 ∧ c = 191))%N.

(** Drops the leading white space; with [back] the bytes come last first,
    as when the end of a string is trimmed. *)
Fixpoint skip_ws (back : bool) (s : list ascii) : list ascii :=
  match s with
  | c1 :: s1 =>
      if is_ws c1 then skip_ws back s1
      else
        match s1 with
        | c2 :: s2 =>
            if (if back then is_ws2 c2 c1 else is_ws2 c1 c2)
            then skip_ws back s2
            else
              match s2 with
              | c3 :: s3 =>
                  if (if back then is_ws3 c3 c2 c1 else is_ws3 c1 c2 c3)
                  then skip_ws back s3
                  else s
              | [] => s
              end
        | [] => s
        end
  | [] => []
  end.

Definition trim (s : list ascii) : list ascii :=
  rev (skip_ws true (rev (skip_ws false s))).

(** The value of [c] as a digit in base [base], if it is one. *)
Definition digit_of (base : N) (c : ascii) : option N :=
  let n := N_of_ascii c in
  let d :=
    if bool_decide (48 ≤ n ≤ 57)%N then Some (n - 48)%N
    else if bool_decide (97 ≤ n ≤ 102)%N then Some (n - 87)%N
    else if bool_decide (65 ≤ n ≤ 70)%N then Some (n - 55)%N
    else None in
  match d with
  | Some d => if bool_decide (d < base)%N then Some d else None
  | None => None
  end.

(** Reads the longest run of digits: its value, its length and the rest. *)
Fixpoint digits (base : N) (acc : N) (len : nat) (s : list ascii)
  : N * nat * list ascii :=
  match s with
  | c :: s' =>
      match digit_of base c with
      | Some d => digits base (acc * base + d)%N (S len) s'
      | None => (acc, len, s)
      end
  | [] => (acc, len, [])
  end.

Definition pow10 (n : Z) : Qc :=
  if bool_decide (0 ≤ n) then Qc_of_Z (10 ^ n)
  else (/ Qc_of_Z (10 ^ (- n)))%Qc.

(** [ExponentPart] (optional) up to the end of the literal: the power of ten
    to scale by. *)
Definition exponent (s : list ascii) : option Z :=
  match s with
  | [] => Some 0
  | c :: s' =>
      if bool_decide (c = "e"%char ∨ c = "E"%char) then
        let '(sign, s'') :=
          match s' with
          | "+"%char :: t => (1, t)
          | "-"%char :: t => (-1, t)
          | _ => (1, s')
          end in
        match digits 10 0 0 s'' with
        | (e, S _, []) => Some (sign * Z.of_N e)
        | _ => None
        end
      else None
  end.

(** A non-negative exact value as the number read: a value that rounds to
    [Infinity] in doubles (from [2^1024 - 2^970] on) is [Infinity], one that
    rounds to zero (up to [2^-1075]) is 0, any other keeps its exact
    value. *)
Definition in_range (v : Qc) : num :=
  if bool_decide (Qc_of_Z (2 ^ 1024 - 2 ^ 970) ≤ v)%Qc then PInf
  else if bool_decide (v ≤ / Qc_of_Z (2 ^ 1075))%Qc then Fin 0%Qc
  else Fin v.

(** [StrUnsignedDecimalLiteral]: the digits [m] of the literal, read as an
    integer, times a power of ten.  A power of ten beyond 400 with [m] not
    zero, or a value below [10^-400], is out of range whatever the digits;
    these two cases are settled before the power is computed. *)
Definition unsigned_decimal (s : list ascii) : num :=
  if bool_decide (s = list_ascii_of_string "Infinity") then PInf
  else
    let '(ip, ni, rest) := digits 10 0 0 s in
    let '(fp, nf, rest') :=
      match rest with
      | "."%char :: t => digits 10 0 0 t
      | _ => (0%N, 0%nat, rest)
      end in
    if bool_decide (ni + nf = 0)%nat then NaN
    else
      match exponent rest' with
      | Some e =>
          let m := Z.of_N ip * 10 ^ Z.of_nat nf + Z.of_N fp in
          let e10 := e - Z.of_nat nf in
          if bool_decide (m = 0) then Fin 0%Qc
          else if bool_decide (400 < e10) then PInf
          else if bool_decide (e10 + Z.of_nat (ni + nf) < -400) then Fin 0%Qc
          else in_range (Qc_of_Z m * pow10 e10)%Qc
      | None => NaN
      end.

(** [NonDecimalIntegerLiteral] after its two-character prefix. *)
Definition radix_integer (base : N) (s : list ascii) : num :=
  match digits base 0 0 s with
  | (n, S _, []) => in_range (Qc_of_Z (Z.of_N n))
  | _ => NaN
  end.

Definition StringToNumber (str : string) : num :=
  match trim (list_ascii_of_string str) with
  | [] => of_Z 0
  | "+"%char :: s => unsigned_decimal s
  | "-"%char :: s => neg (unsigned_decimal s)
  | "0"%char :: c :: s =>
      if bool_decide (c = "x"%char ∨ c = "X"%char) then radix_integer 16 s
      else if bool_decide (c = "o"%char ∨ c = "O"%char) then radix_integer 8 s
      else if bool_decide (c = "b"%char ∨ c = "B"%char) then radix_integer 2 s
      else unsigned_decimal ("0"%char :: c :: s)
  | s => unsigned_decimal s
  end.

(** [ToNumber], the coercion behind unary [+]. *)
Definition ToNumber (v : value) : num :=
  match v with
  | VUndefined => NaN
  | VNull => of_Z 0
  | VBool b => of_Z (if b then 1 else 0)
  | VNumber n => n
  | VString s => StringToNumber s
  end.

(** [ToBoolean], the coercion behind [!], [?:], [if] and [||]. *)
Definition ToBoolean (v : value) : bool :=
  match v with
  | VUndefined | VNull => false
  | VBool b => b
  | VNumber (Fin q) => negb (is_zero q)
  | VNumber NaN => false
  | VNumber _ => true
  | VString s => negb (bool_decide (s = ""))
  end.

(** [!v] *)
Definition not (v : value) : value := VBool (negb (ToBoolean v)).

End JS.

(** ** d3

    The controller calls [d3.max] and [d3.scale.linear], the interface of
    d3 3.x.  The library is not under [src/]; the definitions follow the
    library functions the calls reach ([d3.max], [d3_scale_bilinear],
    [d3_uninterpolateNumber], [d3_interpolateNumber]).  Where the domain is
    [[0, m]] with [m] not zero they compute the interpolation the
    specification writes ([apply_nonzero] below); on the collapsed domain
    [[0, 0]] the library maps every finite value to the lower end of the
    range. *)

Module D3.
Import JS.

Section max.
Context {A : Type}.

(** Second loop of [d3.max(array, f)]:
    [while (++i < n) if ((b = f(array[i])) != null && b > a) a = b;]
    ([f] yields a number here, which is never [null]). *)
Fixpoint max_rest (f : A → num) (a : num) (array : list A) : num :=
  match array with
  | [] => a
  | x :: array' =>
      let b := f x in
      if gtb b a then max_rest f b array' else max_rest f a array'
  end.

(** [d3.max(array, f)]: the first loop looks for the first [b] with
    [b >= b] (not-a-number fails it), the second keeps the greatest;
    [undefined] when no element passes the first loop. *)
Fixpoint max (array : list A) (f : A → num) : value :=
  match array with
  | [] => VUndefined
  | x :: array' =>
      let b := f x in
      if geb b b then VNumber (max_rest f b array') else max array' f
  end.
End max.

(** A linear scale over a two-point domain and range. *)
Record Scale : Type := { domain : num * num; range : num * num }.

(** [d3.scale.linear()] *)
Definition linear : Scale :=
  {| domain := (of_Z 0, of_Z 1); range := (of_Z 0, of_Z 1) |}.

(** [scale.domain(x)]: [domain = x.map(Number)] *)
Definition set_domain (x : value * value) (s : Scale) : Scale :=
  {| domain := (ToNumber x.1, ToNumber x.2); range := range s |}.

(** [scale.range(x)] *)
Definition set_range (x : num * num) (s : Scale) : Scale :=
  {| domain := domain s; range := x |}.

(** [d3_uninterpolateNumber(a, b)]:
    [b = (b -= a = +a) || 1 / b; return function(x) { return (x - a) / b; }] *)
Definition uninterpolateNumber (a b : num) : num → num :=
  let b := sub b a in
  let b := if ToBoolean (VNumber b) then b else div (of_Z 1) b in
  λ x, div (sub x a) b.

(** [d3_interpolateNumber(a, b)]:
    [return function(t) { return a * (1 - t) + b * t; }] *)
Definition interpolateNumber (a b : num) : num → num :=
  λ t, add (mul a (sub (of_Z 1) t)) (mul b t).

(** [scale(x)], through [d3_scale_bilinear]: [i(u(x))]. *)
Definition apply (s : Scale) (x : num) : num :=
  let u := uninterpolateNumber (domain s).1 (domain s).2 in
  let i := interpolateNumber (range s).1 (range s).2 in
  i (u x).

End D3.

(** ** Errors and the log of scale evaluations *)

Inductive error : Type := TypeError.

Inductive result (A : Type) : Type :=
  | Ok (a : A)
  | Throw (e : error).
Arguments Ok {A} a.
Arguments Throw {A} e.

#[global] Instance error_eq_dec : EqDecision error.
Proof. solve_decision. Defined.
#[global] Instance result_eq_dec `{EqDecision A} : EqDecision (result A).
Proof. solve_decision. Defined.

(** A computation that applies the scale returns its value together with
    the arguments the scale was applied to, in order of evaluation. *)
Definition Traced (A : Type) : Type := A * list JS.num.

#[global] Instance Traced_eq_dec `{EqDecision A} : EqDecision (Traced A).
Proof. unfold Traced. apply _. Defined.

Definition tret {A} (a : A) : Traced A := (a, []).

Definition tbind {A B} (m : Traced A) (k : A → Traced B) : Traced B :=
  let '(b, t) := k m.1 in (b, m.2 ++ t).

Notation "'do' x <- m ; k" := (tbind m (λ x, k))
  (at level 10, x name, m at level 100, k at level 200).

Fixpoint each {A B} (f : A → Traced B) (l : list A) : Traced (list B) :=
  match l with
  | [] => tret []
  | a :: l' => do b <- f a; do bs <- each f l'; tret (b :: bs)
  end.

(** [scale(x)], logged. *)
Definition call (s : D3.Scale) (x : JS.num) : Traced JS.num :=
  (D3.apply s x, [x]).

(** ** The rendering surface *)

Module DOM.

(** An element the pass creates: its tag and its attributes.  An attribute
    holds the number handed to [setAttribute]. *)
Record Node : Type := { tagName : string; attributes : gmap string JS.num }.

(** A [.distinct .lollipop] element: its [data-*] attributes and its
    children, in document order. *)
Record Element : Type :=
  { dataset : gmap string string; childNodes : list Node }.

#[global] Instance Node_eq_dec : EqDecision Node.
Proof. solve_decision. Defined.
#[global] Instance Element_eq_dec : EqDecision Element.
Proof. solve_decision. Defined.

(** A selected element with the datum d3 bound to it ([__data__]). *)
Record Bound : Type := { element : Element; __data__ : gmap string string }.

(** [d.p] on a [DOMStringMap]. *)
Definition prop (d : gmap string string) (p : string) : JS.value :=
  from_option JS.VString JS.VUndefined (d !! p).

(** [selection.datum(f)]: binds [f.call(node)] to every selected node. *)
Definition datum (f : Element → gmap string string) (sel : list Element)
  : list Bound :=
  map (λ this, {| element := this; __data__ := f this |}) sel.

(** [selection.data()]: the bound data, in order. *)
Definition data (sel : list Bound) : list (gmap string string) :=
  map __data__ sel.

Definition createElement (name : string) : Node :=
  {| tagName := name; attributes := ∅ |}.

(** [selection.append(name)]: a new child for every selected element,
    inheriting its datum.  The child is kept beside its parent until the
    chain of [attr] calls on it ends, then [attach] puts it last among the
    parent's children. *)
Definition append (name : string) (sel : list Bound) : list (Bound * Node) :=
  map (λ b, (b, createElement name)) sel.

Definition setAttribute (n : Node) (name : string) (v : JS.num) : Node :=
  {| tagName := tagName n; attributes := <[name := v]> (attributes n) |}.

(** [selection.attr(name, function(d) {...})]: one call per node, in order. *)
Definition attr_each (name : string) (f : gmap string string → Traced JS.num)
    (sel : list (Bound * Node)) : Traced (list (Bound * Node)) :=
  each (λ bn, do v <- f (__data__ bn.1); tret (bn.1, setAttribute bn.2 name v))
       sel.

(** [selection.attr(name, value)] *)
Definition attr (name : string) (v : JS.num) (sel : list (Bound * Node))
  : list (Bound * Node) :=
  map (λ bn, (bn.1, setAttribute bn.2 name v)) sel.

Definition appendChild (e : Element) (n : Node) : Element :=
  {| dataset := dataset e; childNodes := childNodes e ++ [n] |}.

Definition attach (sel : list (Bound * Node)) : list Bound :=
  map (λ bn, {| element := appendChild (element bn.1) bn.2;
                __data__ := __data__ bn.1 |}) sel.

End DOM.

(** ** The controller: the lollipop pass *)

(** The list view handed to the handler.  [el] is absent until the view is
    rendered; when present it is held as the elements
    [selectAll('.distinct .lollipop')] finds under [el.dom]. *)
Record ListComponent : Type := { el : option (list DOM.Element) }.

#[global] Instance ListComponent_eq_dec : EqDecision ListComponent.
Proof. solve_decision. Defined.

(** [function(d) { return +d.score_sentences; }] *)
Definition score (d : gmap string string) : JS.num :=
  JS.ToNumber (DOM.prop d "score_sentences").

(** The body of [lollipop] over the selected elements, lines 168-195. *)
Definition lollipop_dom (dom : list DOM.Element)
  : Traced (list DOM.Element) :=
  let svg := DOM.datum DOM.dataset dom in
  let maxscore := D3.max (DOM.data svg) score in
  let r := JS.of_Z 4 in
  let scale :=
    D3.set_range (r, JS.sub (JS.of_Z 100) r)
      (D3.set_domain (JS.VNumber (JS.of_Z 0), maxscore) D3.linear) in
  do circles <- DOM.attr_each "cx" (λ d, call scale (score d))
                  (DOM.append "circle" svg);
  let circles := DOM.attr "r" r (DOM.attr "cy" (JS.of_Z 8) circles) in
  let svg := DOM.attach circles in
  let lines := DOM.append "line" svg in
  do x1 <- call scale (JS.of_Z 0);
  let lines := DOM.attr "x1" x1 lines in
  do lines <- DOM.attr_each "x2" (λ d, call scale (score d)) lines;
  let lines :=
    DOM.attr "stroke-width" (JS.of_Z 1)
      (DOM.attr "y2" (JS.of_Z 8) (DOM.attr "y1" (JS.of_Z 8) lines)) in
  tret (map DOM.element (DOM.attach lines)).

(** [lollipop: function(component)], lines 167-197. *)
Definition lollipop (component : ListComponent)
  : result (Traced ListComponent) :=
  match el component with
  | None => Throw TypeError
  | Some dom =>
      let '(dom', log) := lollipop_dom dom in Ok ({| el := Some dom' |}, log)
  end.

(** ** The collaborators of the toggles, the overlay and the slice loader *)

(** A filter handed to [store.filter]: [{property: ..., value: ...}]. *)
Module Filter.
Record t : Type := { property : string; value : JS.value }.
End Filter.

Inductive Direction : Type := ASC | DESC.

(** A sorter handed to [store.sort]: [{property: ..., direction: ...}]. *)
Module Sorter.
Record t : Type := { property : string; direction : Direction }.
End Sorter.

Module Store.

(** Modelled from the spec: the result collection (the "store" of the UI
    framework) is not under [src/].  The spec gives its contract:
    [load(params)] starts a fetch, [clearFilter()] drops the filters,
    [filter(predicate)] adds one, [sort(key, direction)] orders the rows,
    all synchronous, and the current row set can be enumerated.  A store
    holds its records in their current order, the active filters, the
    active sorters and the parameters of the loads requested so far. *)
Record t : Type :=
  { records : list (gmap string JS.value);
    filters : list Filter.t;
    sorters : list Sorter.t;
    loads : list (gmap string JS.value) }.

(** Modelled from the spec: a filter "keeps only rows whose [is_lemmatized]
    equals" its value; a record passes when its field equals the filter's
    value. *)
Definition passes (r : gmap string JS.value) (f : Filter.t) : bool :=
  bool_decide (JS.get r (Filter.property f) = Filter.value f).

(** Modelled from the spec: [clearFilter()], "any prior filter is
    cleared". *)
Definition clearFilter (s : t) : t :=
  {| records := records s; filters := []; sorters := sorters s;
     loads := loads s |}.

(** Modelled from the spec: [filter(predicate)] adds a filter to the
    active ones. *)
Definition filter (f : Filter.t) (s : t) : t :=
  {| records := records s; filters := filters s ++ [f];
     sorters := sorters s; loads := loads s |}.

(** Modelled from the spec: "enumerable access to its current row set",
    the records every active filter lets through. *)
Definition visible (s : t) : list (gmap string JS.value) :=
  List.filter (λ r, forallb (passes r) (filters s)) (records s).

(** Modelled from the spec: the sort key of a record, its field as a
    number ([count] is an integer, [score_sentences] a real). *)
Definition key (p : string) (r : gmap string JS.value) : JS.num :=
  JS.ToNumber (JS.get r p).

(** Modelled from the spec: [a] may stand before [b] under the sorter;
    descending, when [b]'s key is not greater than [a]'s; ascending, the
    other way round.  The order of equal keys is left open by the spec. *)
Definition before (srt : Sorter.t) (a b : gmap string JS.value) : Prop :=
  let p := Sorter.property srt in
  match Sorter.direction srt with
  | DESC => JS.gtb (key p b) (key p a) = false
  | ASC => JS.gtb (key p a) (key p b) = false
  end.

#[global] Instance before_dec srt a b : Decision (before srt a b).
Proof. unfold before. destruct (Sorter.direction srt); apply _. Defined.

(** Modelled from the spec: [sort(key, direction)] makes the sorter the
    one active sorter and reorders the records by it. *)
Definition sort (srt : Sorter.t) (s : t) : t :=
  {| records := merge_sort (before srt) (records s);
     filters := filters s; sorters := [srt]; loads := loads s |}.

(** Modelled from the spec: [load(params)] "triggers an out-of-process
    fetch"; the request is recorded, the rows arrive outside this file. *)
Definition load (params : gmap string JS.value) (s : t) : t :=
  {| records := records s; filters := filters s; sorters := sorters s;
     loads := loads s ++ [params] |}.
End Store.

(** A frequent-words or phrases list view: the two flags the option handler
    keeps on it and its store. *)
Module View.
Record t : Type :=
  { groupedByStem : JS.value;
    orderedByDiffProp : JS.value;
    getStore : Store.t }.
End View.

(** The stores of a layout panel's model, by name. *)
Inductive StoreRef : Type := NStore | VStore | JStore | PhrasesStore.

(** The layout-panel model: the answer [isSameSlice()] gives in this state
    and its stores. *)
Module LayoutPanelModel.
Record t : Type :=
  { isSameSlice : bool;
    NStore : Store.t;
    VStore : Store.t;
    JStore : Store.t;
    getPhrasesStore : Store.t }.
End LayoutPanelModel.

(** A list inside the overlay: [{xtype: ..., store: ...}]. *)
Module ListItem.
Record t : Type := { xtype : string; store : StoreRef }.
End ListItem.

(** [Ext.create("Ext.panel.Panel", {title: ..., items: [...]})] *)
Module InnerPanel.
Record t : Type := { title : string; items : list ListItem.t }.
End InnerPanel.

(** A child component of a layout panel, with the configuration the
    controller gives a menu overlay.  [shownBy] is the element the
    component was last shown by, if any. *)
Module Component.
Record t : Type :=
  { destroyOnClose : bool;
    button : JS.value;
    floatParent : string;
    itemId : string;
    title : string;
    width : Z;
    height : string;
    layout : string;
    draggable : bool;
    items : list InnerPanel.t;
    shownBy : option JS.value }.

(** [overlay.showBy(el)] *)
Definition showBy (el : JS.value) (c : t) : t :=
  {| destroyOnClose := destroyOnClose c; button := button c;
     floatParent := floatParent c; itemId := itemId c; title := title c;
     width := width c; height := height c; layout := layout c;
     draggable := draggable c; items := items c; shownBy := Some el |}.
End Component.

(** [formValues.serialize()] and [formValues.search] of a search query. *)
Module FormValues.
Record t : Type :=
  { serialize : gmap string JS.value;
    search : option (list (gmap string JS.value)) }.
End FormValues.

(** A layout panel.  [el] is absent until the panel is rendered; when
    present it maps a selector to the id of its first matching descendant. *)
Module Panel.
Record t : Type :=
  { id : string;
    el : option (gmap string string);
    items : list Component.t;
    formValues : option FormValues.t;
    getLayoutPanelModel : LayoutPanelModel.t }.

(** [panel.getComponent(itemId)] *)
Definition getComponent (key : string) (panel : t) : option Component.t :=
  List.find (λ c, bool_decide (Component.itemId c = key)) (items panel).

(** [panel.add(component)] *)
Definition add (c : Component.t) (panel : t) : t :=
  {| id := id panel; el := el panel; items := items panel ++ [c];
     formValues := formValues panel;
     getLayoutPanelModel := getLayoutPanelModel panel |}.

(** [el.down(selector)]: the descendant, or [null]. *)
Definition down (selector : string) (e : gmap string string) : JS.value :=
  from_option JS.VString JS.VNull (e !! selector).
End Panel.

(** [getInstance()] and [getUsername()] of the page. *)
Record Env : Type := { getInstance : JS.value; getUsername : JS.value }.

(** [Ext.apply(object, config)]: copies the properties of [config] onto
    [object]. *)
Definition Ext_apply (object config : gmap string JS.value)
  : gmap string JS.value := config ∪ object.

(** ** The controller: toggles, overlay, slice loader *)

(** [applyFilters: function(frequent_words_list)], lines 74-82. *)
Definition applyFilters (frequent_words_list : View.t) : View.t :=
  let store := View.getStore frequent_words_list in
  let value :=
    if JS.ToBoolean (View.groupedByStem frequent_words_list)
    then JS.of_Z 1 else JS.of_Z 0 in
  let store := Store.clearFilter store in
  let store :=
    Store.filter {| Filter.property := "is_lemmatized";
                    Filter.value := JS.VNumber value |} store in
  {| View.groupedByStem := View.groupedByStem frequent_words_list;
     View.orderedByDiffProp := View.orderedByDiffProp frequent_words_list;
     View.getStore := store |}.

(** [applySorter: function(frequent_words_list)], lines 89-99. *)
Definition applySorter (frequent_words_list : View.t) : View.t :=
  let store := View.getStore frequent_words_list in
  let property := "count" in
  let property :=
    if JS.ToBoolean (View.orderedByDiffProp frequent_words_list)
    then "score_sentences" else property in
  let store :=
    Store.sort {| Sorter.property := property; Sorter.direction := DESC |}
      store in
  {| View.groupedByStem := View.groupedByStem frequent_words_list;
     View.orderedByDiffProp := View.orderedByDiffProp frequent_words_list;
     View.getStore := store |}.

(** [v == lit] for a primitive [v] and a string literal that does not read
    as a number: only the same string is equal to it. *)
Definition eq_literal (v : JS.value) (lit : string) : bool :=
  match v with
  | JS.VString s => bool_decide (s = lit)
  | _ => false
  end.

(** The [optionEvent] handler, lines 22-32; [action] is
    [option.option.action]. *)
Definition optionEvent (view : View.t) (action : JS.value) : View.t :=
  if eq_literal action "group-by-stem" then
    applyFilters
      {| View.groupedByStem := JS.not (View.groupedByStem view);
         View.orderedByDiffProp := View.orderedByDiffProp view;
         View.getStore := View.getStore view |}
  else if eq_literal action "order-by-score" then
    applySorter
      {| View.groupedByStem := View.groupedByStem view;
         View.orderedByDiffProp := JS.not (View.orderedByDiffProp view);
         View.getStore := View.getStore view |}
  else view.

(** The overlay of lines 113-161. *)
Definition frequent_words_overlay (panel : Panel.t) (button_el : JS.value)
  : Component.t :=
  let list_of xtype store :=
    {| ListItem.xtype := xtype; ListItem.store := store |} in
  {| Component.destroyOnClose := false;
     Component.button := button_el;
     Component.floatParent := Panel.id panel;
     Component.itemId := "frequent-words-overlay";
     Component.title := "Frequent Words";
     Component.width := 380;
     Component.height := "75%";
     Component.layout := "accordion";
     Component.draggable := true;
     Component.items :=
       [ {| InnerPanel.title := "Nouns";
            InnerPanel.items := [list_of "frequent-words" NStore] |};
         {| InnerPanel.title := "Verbs";
            InnerPanel.items := [list_of "frequent-words" VStore] |};
         {| InnerPanel.title := "Adjectives";
            InnerPanel.items := [list_of "frequent-words" JStore] |};
         {| InnerPanel.title := "Phrases";
            InnerPanel.items := [list_of "phraseslist" PhrasesStore] |} ];
     Component.shownBy := None |}.

(** [showFrequentWordsOverlay: function(panel, button)], lines 109-165. *)
Definition showFrequentWordsOverlay (panel : Panel.t) (button : JS.value)
  : result Panel.t :=
  match Panel.getComponent "frequent-words-overlay" panel with
  | Some _ => Ok panel
  | None =>
      match Panel.el panel with
      | None => Throw TypeError
      | Some e =>
          let button_el :=
            Panel.down "span.panel-header-menubutton.frequent-words" e in
          let overlay := frequent_words_overlay panel button_el in
          let overlay := Component.showBy button_el overlay in
          Ok (Panel.add overlay panel)
      end
  end.

(** [getFrequentWordForSlice: function(panel, formValues)], lines 48-66. *)
Definition getFrequentWordForSlice (env : Env) (panel : Panel.t)
    (formValues : FormValues.t) : Panel.t :=
  let panel_formValues :=
    match Panel.formValues panel with
    | None => Some formValues
    | Some fv => Some fv
    end in
  let model := Panel.getLayoutPanelModel panel in
  let model :=
    if negb (LayoutPanelModel.isSameSlice model) then
      let params : gmap string JS.value :=
        {[ "instance" := getInstance env; "user" := getUsername env ]} in
      let params := Ext_apply params (FormValues.serialize formValues) in
      let params :=
        match FormValues.search formValues with
        | Some (first :: _) => Ext_apply params first
        | _ => params
        end in
      {| LayoutPanelModel.isSameSlice := LayoutPanelModel.isSameSlice model;
         LayoutPanelModel.NStore :=
           Store.load params (LayoutPanelModel.NStore model);
         LayoutPanelModel.VStore :=
           Store.load params (LayoutPanelModel.VStore model);
         LayoutPanelModel.JStore :=
           Store.load params (LayoutPanelModel.JStore model);
         LayoutPanelModel.getPhrasesStore :=
           LayoutPanelModel.getPhrasesStore model |}
    else model in
  {| Panel.id := Panel.id panel; Panel.el := Panel.el panel;
     Panel.items := Panel.items panel;
     Panel.formValues := panel_formValues;
     Panel.getLayoutPanelModel := model |}.


(** ** Shapes, scales and example states *)

(** The scale a pass builds over rows with the given data, lines 172-178. *)
Definition build_scale (rows : list (gmap string string)) : D3.Scale :=
  let maxscore := D3.max rows score in
  let r := JS.of_Z 4 in
  D3.set_range (r, JS.sub (JS.of_Z 100) r)
    (D3.set_domain (JS.VNumber (JS.of_Z 0), maxscore) D3.linear).

(** Modelled from the spec: the scale is d3's, which is not under [src/].
    The spec words the mapping as
    [scale(x) = r + (x / maxScore) * (100 - 2r)] with [r = 4]. *)
Definition spec_scale (maxScore x : JS.num) : JS.num :=
  JS.add (JS.of_Z 4) (JS.mul (JS.div x maxScore) (JS.of_Z 92)).

(** A dot centred at [(cx, 8)] with radius 4. *)
Definition dot (cx : JS.num) : DOM.Node :=
  {| DOM.tagName := "circle";
     DOM.attributes :=
       {[ "cx" := cx; "cy" := JS.of_Z 8; "r" := JS.of_Z 4 ]} |}.

(** A line from [(x1, 8)] to [(x2, 8)] of stroke width 1. *)
Definition stick (x1 x2 : JS.num) : DOM.Node :=
  {| DOM.tagName := "line";
     DOM.attributes :=
       {[ "x1" := x1; "x2" := x2; "y1" := JS.of_Z 8; "y2" := JS.of_Z 8;
          "stroke-width" := JS.of_Z 1 ]} |}.

(** A row after a pass that positions with [scale]: its dot and its line
    come last among its children. *)
Definition drawn (scale : JS.num → JS.num) (e : DOM.Element) : DOM.Element :=
  let x := scale (score (DOM.dataset e)) in
  DOM.appendChild (DOM.appendChild e (dot x)) (stick (scale (JS.of_Z 0)) x).

(** The scale evaluations of one pass over [dom]: once per row for the
    dots, once at 0, once more per row for the lines. *)
Definition evaluations (dom : list DOM.Element) : list JS.num :=
  let xs := map (λ e, score (DOM.dataset e)) dom in
  xs ++ [JS.of_Z 0] ++ xs.

(** A row element carrying only its score. *)
Definition row (s : string) : DOM.Element :=
  {| DOM.dataset := {[ "score_sentences" := s ]}; DOM.childNodes := [] |}.

(** The row sets of the examples. *)
Definition rows_2_8_10 : list DOM.Element := [row "2"; row "8"; row "10"].
Definition rows_all_zero : list DOM.Element := [row "0"].
Definition rows_one_malformed : list DOM.Element := [row "abc"; row "10"].

Definition rows_2_10 : list DOM.Element := [row "2"; row "10"].

(** A row element drawn while its score was 2 of 10, whose data attribute
    now reads 10. *)
Definition redrawn_row : DOM.Element :=
  {| DOM.dataset := {[ "score_sentences" := "10" ]};
     DOM.childNodes :=
       [dot (JS.Fin (Q2Qc (112 # 5)));
        stick (JS.of_Z 4) (JS.Fin (Q2Qc (112 # 5)))] |}.

(** The one filter [applyFilters] leaves on a store. *)
Definition lemma_filter (grouped : bool) : Filter.t :=
  {| Filter.property := "is_lemmatized";
     Filter.value := JS.VNumber (JS.of_Z (if grouped then 1 else 0)) |}.

(** The sorter [applySorter] hands to the store. *)
Definition score_sorter (byScore : bool) : Sorter.t :=
  {| Sorter.property := if byScore then "score_sentences" else "count";
     Sorter.direction := DESC |}.

(** A record with its [is_lemmatized] field only. *)
Definition lemma_record (z : Z) : gmap string JS.value :=
  {[ "is_lemmatized" := JS.VNumber (JS.of_Z z) ]}.

(** A store as loaded, never filtered: one plain and one stem-grouped row. *)
Definition fresh_store : Store.t :=
  {| Store.records := [lemma_record 0; lemma_record 1];
     Store.filters := []; Store.sorters := []; Store.loads := [] |}.

(** A list view as created: both flags false, nothing filtered. *)
Definition fresh_view : View.t :=
  {| View.groupedByStem := JS.VBool false;
     View.orderedByDiffProp := JS.VBool false;
     View.getStore := fresh_store |}.

(** A record with a count and a score, and a view over three of them. *)
Definition word_record (count score_sentences : Z) : gmap string JS.value :=
  {[ "count" := JS.VNumber (JS.of_Z count);
     "score_sentences" := JS.VNumber (JS.of_Z score_sentences) ]}.

Definition counted_view : View.t :=
  {| View.groupedByStem := JS.VBool false;
     View.orderedByDiffProp := JS.VBool false;
     View.getStore :=
       {| Store.records :=
            [word_record 3 1; word_record 1 5; word_record 2 2];
          Store.filters := []; Store.sorters := []; Store.loads := [] |} |}.

(** The item id the overlay guard looks for. *)
Definition overlay_id : string := "frequent-words-overlay".

(** The parameters of the three loads of [getFrequentWordForSlice]. *)
Definition slice_params (env : Env) (formValues : FormValues.t)
  : gmap string JS.value :=
  let base : gmap string JS.value :=
    {[ "instance" := getInstance env; "user" := getUsername env ]} in
  let params := FormValues.serialize formValues ∪ base in
  match FormValues.search formValues with
  | Some (first :: _) => first ∪ params
  | _ => params
  end.

Definition empty_store : Store.t :=
  {| Store.records := []; Store.filters := []; Store.sorters := [];
     Store.loads := [] |}.

(** A rendered layout panel with no child component, on a new slice. *)
Definition bare_panel : Panel.t :=
  {| Panel.id := "panel-1";
     Panel.el :=
       Some {[ "span.panel-header-menubutton.frequent-words" := "button-1" ]};
     Panel.items := [];
     Panel.formValues := None;
     Panel.getLayoutPanelModel :=
       {| LayoutPanelModel.isSameSlice := false;
          LayoutPanelModel.NStore := empty_store;
          LayoutPanelModel.VStore := empty_store;
          LayoutPanelModel.JStore := empty_store;
          LayoutPanelModel.getPhrasesStore := empty_store |} |}.

(** The same panel once its overlay has been shown. *)
Definition panel_with_overlay : Panel.t :=
  Panel.add
    (Component.showBy (JS.VString "button-1")
       (frequent_words_overlay bare_panel (JS.VString "button-1")))
    bare_panel.

(** The same panel when the slice has not changed. *)
Definition same_slice_panel : Panel.t :=
  {| Panel.id := "panel-1";
     Panel.el := Panel.el bare_panel;
     Panel.items := [];
     Panel.formValues := None;
     Panel.getLayoutPanelModel :=
       {| LayoutPanelModel.isSameSlice := true;
          LayoutPanelModel.NStore := empty_store;
          LayoutPanelModel.VStore := empty_store;
          LayoutPanelModel.JStore := empty_store;
          LayoutPanelModel.getPhrasesStore := empty_store |} |}.

Definition some_env : Env :=
  {| getInstance := JS.VString "corpus"; getUsername := JS.VString "reader" |}.

Definition some_query : FormValues.t :=
  {| FormValues.serialize := {[ "collection" := JS.VString "all" ]};
     FormValues.search := Some [ {[ "gov" := JS.VString "word" ]} ] |}.

(** The group-by-stem and order-by-score toggles. *)
Definition toggleGroupByStem (view : View.t) : View.t :=
  optionEvent view (JS.VString "group-by-stem").

Definition toggleOrderByScore (view : View.t) : View.t :=
  optionEvent view (JS.VString "order-by-score").

(** ** Repeated passes, counts and further example states *)

(** One pass over the rows of a rendered list, the log left out. *)
Definition pass (dom : list DOM.Element) : list DOM.Element :=
  (lollipop_dom dom).1.

(** The two shapes a pass that positions with [scale] gives a row. *)
Definition shapes (scale : JS.num → JS.num) (e : DOM.Element)
  : list DOM.Node :=
  let x := scale (score (DOM.dataset e)) in
  [dot x; stick (scale (JS.of_Z 0)) x].

(** A row after [n] passes that position with [scale]. *)
Definition drawn_times (n : nat) (scale : JS.num → JS.num) (e : DOM.Element)
  : DOM.Element :=
  {| DOM.dataset := DOM.dataset e;
     DOM.childNodes :=
       DOM.childNodes e ++ List.concat (replicate n (shapes scale e)) |}.


(** The first search term of a query, if it has one. *)
Definition first_search (formValues : FormValues.t) : gmap string JS.value :=
  match FormValues.search formValues with
  | Some (first :: _) => first
  | _ => ∅
  end.

(** The key the order-by-score toggle sorts by once the flag is [byScore]. *)
Definition sort_property (byScore : bool) : string :=
  if byScore then "score_sentences" else "count".

(** [a] does not come after [b] in descending order of the numeric field
    [p]. *)
Definition descending (p : string) (a b : gmap string JS.value) : Prop :=
  ∃ x y : Qc, Store.key p a = JS.Fin x ∧ Store.key p b = JS.Fin y
              ∧ (y ≤ x)%Qc.

(** One row with a score that is not a number, one with no score at all. *)
Definition rows_all_malformed : list DOM.Element :=
  [row "abc"; {| DOM.dataset := ∅; DOM.childNodes := [] |}].

(** A second query, without search terms. *)
Definition other_query : FormValues.t :=
  {| FormValues.serialize := {[ "collection" := JS.VString "letters" ]};
     FormValues.search := None |}.

(** An unrendered layout panel with no child component. *)
Definition unrendered_panel : Panel.t :=
  {| Panel.id := "panel-2";
     Panel.el := None;
     Panel.items := [];
     Panel.formValues := None;
     Panel.getLayoutPanelModel := Panel.getLayoutPanelModel bare_panel |}.

(** ** Doubles

    The numbers the program holds are IEEE 754 doubles.  [F64] rounds an
    exact number to the double nearest to it and runs the scale of the pass
    with the arithmetic of doubles, every operation rounded.  The sign of
    zero is not told apart; it changes none of the positions. *)

Module F64.

(** The double nearest to a rational, ties to even: the quotient of its
    numerator and denominator, rounded once. *)
Definition of_Qc (q : Qc) : PrimFloat.float :=
  let den := SpecFloat.S754_finite false (Qden q) 0 in
  match Qnum q with
  | Z0 => PrimFloat.zero
  | Zpos n =>
      FloatOps.SF2Prim
        (SpecFloat.SFdiv FloatOps.prec FloatOps.emax
           (SpecFloat.S754_finite false n 0) den)
  | Zneg n =>
      FloatOps.SF2Prim
        (SpecFloat.SFdiv FloatOps.prec FloatOps.emax
           (SpecFloat.S754_finite true n 0) den)
  end.

(** The double the program holds for an exact number. *)
Definition of_num (x : JS.num) : PrimFloat.float :=
  match x with
  | JS.Fin q => of_Qc q
  | JS.PInf => PrimFloat.infinity
  | JS.NInf => PrimFloat.neg_infinity
  | JS.NaN => PrimFloat.nan
  end.


(** [ToBoolean] on a double: zero and not-a-number are falsy. *)
Definition truthy (x : PrimFloat.float) : bool :=
  negb (PrimFloat.eqb x PrimFloat.zero || PrimFloat.is_nan x).

(** [d3_uninterpolateNumber(a, b)]:
    [b = (b -= a = +a) || 1 / b; return function(x) { return (x - a) / b; }] *)
Definition uninterpolateNumber (a b : PrimFloat.float)
  : PrimFloat.float → PrimFloat.float :=
  let b := PrimFloat.sub b a in
  let b := if truthy b then b else PrimFloat.div PrimFloat.one b in
  λ x, PrimFloat.div (PrimFloat.sub x a) b.

(** [d3_interpolateNumber(a, b)]:
    [return function(t) { return a * (1 - t) + b * t; }] *)
Definition interpolateNumber (a b : PrimFloat.float)
  : PrimFloat.float → PrimFloat.float :=
  λ t, PrimFloat.add (PrimFloat.mul a (PrimFloat.sub PrimFloat.one t))
         (PrimFloat.mul b t).

(** [scale(x)] for a scale of the given two-point domain and range. *)
Definition apply (domain range : PrimFloat.float * PrimFloat.float)
    (x : PrimFloat.float) : PrimFloat.float :=
  interpolateNumber range.1 range.2
    (uninterpolateNumber domain.1 domain.2 x).


(** Modelled from the spec: [scale(x) = r + (x / maxScore) * (100 - 2r)]
    with [r = 4], in doubles. *)
Definition spec_scale (maxScore x : JS.num) : PrimFloat.float :=
  PrimFloat.add (of_num (JS.of_Z 4))
    (PrimFloat.mul (PrimFloat.div (of_num x) (of_num maxScore))
       (of_num (JS.of_Z 92))).

End F64.


(** * Properties *)

(** ** Numbers *)

Lemma Qc_of_Z_0 : Qc_of_Z 0 = 0%Qc.
Proof. by apply Qc_is_canon. Qed.

Lemma Qc_of_Z_1 : Qc_of_Z 1 = 1%Qc.
Proof. by apply Qc_is_canon. Qed.

Lemma is_zero_false (q : Qc) : q ≠ 0%Qc → JS.is_zero q = false.
Proof. intros H. unfold JS.is_zero. by rewrite bool_decide_eq_false. Qed.

Lemma is_zero_true : JS.is_zero 0 = true.
Proof. done. Qed.

(** Unary plus on the strings a [data-*] attribute can hold. *)
Example ToNumber_strings :
  JS.StringToNumber "22.4" = JS.Fin (Q2Qc (112 # 5))
  ∧ JS.StringToNumber " -1.5e1 " = JS.of_Z (-15)
  ∧ JS.StringToNumber ".5" = JS.Fin (Q2Qc (1 # 2))
  ∧ JS.StringToNumber "5." = JS.of_Z 5
  ∧ JS.StringToNumber "1e-2" = JS.Fin (Q2Qc (1 # 100))
  ∧ JS.StringToNumber "0x1F" = JS.of_Z 31
  ∧ JS.StringToNumber "" = JS.of_Z 0
  ∧ JS.StringToNumber "-Infinity" = JS.NInf
  ∧ JS.StringToNumber "abc" = JS.NaN
  ∧ JS.StringToNumber "." = JS.NaN
  ∧ JS.StringToNumber "1e" = JS.NaN
  ∧ JS.StringToNumber "1 2" = JS.NaN
  ∧ JS.StringToNumber "-0x10" = JS.NaN
  ∧ JS.ToNumber JS.VUndefined = JS.NaN.
Proof. compute_done. Qed.

(** ** The trace of scale evaluations *)

Lemma each_logged {A B} (g : A → B) (h : A → JS.num) (l : list A) :
  each (λ a, (g a, [h a])) l = (map g l, map h l).
Proof.
  induction l as [|a l IH]; [done|].
  cbn [each]. rewrite IH. unfold tbind, tret. cbn.
  by rewrite app_nil_r.
Qed.

Lemma attr_each_call name scale (sel : list (DOM.Bound * DOM.Node)) :
  DOM.attr_each name (λ d, call scale (score d)) sel =
  (map (λ bn, (bn.1, DOM.setAttribute bn.2 name
                       (D3.apply scale (score (DOM.__data__ bn.1))))) sel,
   map (λ bn, score (DOM.__data__ bn.1)) sel).
Proof. unfold DOM.attr_each. apply (each_logged _ _ sel). Qed.

(** ** The render pass, in closed form *)

Lemma dot_attributes (cx : JS.num) :
  <["r" := JS.of_Z 4]> (<["cy" := JS.of_Z 8]> (<["cx" := cx]> ∅))
  = DOM.attributes (dot cx).
Proof.
  apply map_eq. intros k. cbn.
  rewrite !lookup_insert, lookup_singleton, lookup_empty.
  repeat case_decide; subst; done.
Qed.

Lemma stick_attributes (x1 x2 : JS.num) :
  <["stroke-width" := JS.of_Z 1]>
    (<["y2" := JS.of_Z 8]> (<["y1" := JS.of_Z 8]>
       (<["x2" := x2]> (<["x1" := x1]> ∅))))
  = DOM.attributes (stick x1 x2).
Proof.
  apply map_eq. intros k. cbn.
  rewrite !lookup_insert, lookup_singleton, lookup_empty.
  repeat case_decide; subst; done.
Qed.

Lemma data_datum (f : DOM.Element → gmap string string) sel :
  DOM.data (DOM.datum f sel) = map f sel.
Proof. unfold DOM.data, DOM.datum. by rewrite map_map. Qed.

Lemma lollipop_dom_eq (dom : list DOM.Element) :
  lollipop_dom dom =
  (map (drawn (D3.apply (build_scale (map DOM.dataset dom)))) dom,
   evaluations dom).
Proof.
  unfold lollipop_dom. rewrite data_datum.
  change (D3.set_range _ _) with (build_scale (map DOM.dataset dom)).
  generalize (build_scale (map DOM.dataset dom)). intros scale.
  unfold tbind. rewrite attr_each_call. cbn [fst snd].
  rewrite attr_each_call. cbn [fst snd].
  unfold tret, call, evaluations, DOM.attach, DOM.attr, DOM.append, DOM.datum.
  cbn [fst snd]. rewrite app_nil_r.
  apply (f_equal2 pair).
  - induction dom as [|e dom IH]; [done|].
    cbn [map fst snd DOM.__data__ DOM.element] in *. rewrite IH.
    apply (f_equal (λ x, x :: _)).
    unfold drawn, DOM.setAttribute, DOM.createElement.
    cbn [DOM.tagName DOM.attributes].
    by rewrite dot_attributes, stick_attributes.
  - apply (f_equal2 app); [|apply (f_equal (λ x, _ :: x))].
    all: induction dom as [|e dom IH]; [done|].
    all: cbn [map fst snd DOM.__data__ DOM.element] in *.
    all: by rewrite IH.
Qed.

Lemma lollipop_eq (dom : list DOM.Element) :
  lollipop {| el := Some dom |} =
  Ok ({| el := Some (map (drawn (D3.apply (build_scale (map DOM.dataset dom))))
                       dom) |},
      evaluations dom).
Proof. unfold lollipop. cbn [el]. by rewrite lollipop_dom_eq. Qed.

(** ** The scale *)

Lemma range_top :
  (Qc_of_Z 100 + - Qc_of_Z 4)%Qc = (Qc_of_Z 4 + Qc_of_Z 92)%Qc.
Proof. by apply Qc_is_canon. Qed.

Lemma build_scale_eq rows :
  build_scale rows =
  {| D3.domain := (JS.of_Z 0, JS.ToNumber (D3.max rows score));
     D3.range := (JS.of_Z 4, JS.Fin (Qc_of_Z 4 + Qc_of_Z 92)) |}.
Proof.
  unfold build_scale, D3.set_range, D3.set_domain. cbn.
  by rewrite range_top.
Qed.

(** Over a domain [[0, m]] with [m] non-zero the scale is the interpolation
    the specification writes. *)
Lemma apply_nonzero rows (m q : Qc) :
  D3.max rows score = JS.VNumber (JS.Fin m) → m ≠ 0%Qc →
  D3.apply (build_scale rows) (JS.Fin q) = spec_scale (JS.Fin m) (JS.Fin q).
Proof.
  intros Hmax Hm. rewrite build_scale_eq, Hmax.
  unfold D3.apply, D3.uninterpolateNumber, D3.interpolateNumber, spec_scale,
    JS.of_Z.
  cbn [fst snd D3.domain D3.range JS.ToNumber JS.ToBoolean JS.sub JS.add
       JS.neg JS.of_Z].
  rewrite Qc_of_Z_0, Qc_of_Z_1.
  assert (Hm' : (m + - 0)%Qc ≠ 0%Qc) by (intros H; apply Hm; rewrite <-H; ring).
  rewrite (is_zero_false _ Hm'). cbn [negb JS.div].
  rewrite (is_zero_false _ Hm'), (is_zero_false _ Hm).
  cbn [JS.mul JS.add JS.sub JS.neg]. f_equal. field. done.
Qed.

(** Over the collapsed domain [[0, 0]] every finite argument maps to the
    lower end of the range. *)
Lemma apply_zero rows (q : Qc) :
  D3.max rows score = JS.VNumber (JS.Fin 0) →
  D3.apply (build_scale rows) (JS.Fin q) = JS.of_Z 4.
Proof.
  intros Hmax. rewrite build_scale_eq, Hmax.
  unfold D3.apply, D3.uninterpolateNumber, D3.interpolateNumber, JS.of_Z.
  cbn [fst snd D3.domain D3.range JS.ToNumber JS.ToBoolean JS.sub JS.add
       JS.neg JS.of_Z].
  rewrite Qc_of_Z_0, Qc_of_Z_1.
  replace (0 + - 0)%Qc with 0%Qc by ring.
  rewrite is_zero_true. cbn [negb JS.div]. rewrite is_zero_true.
  unfold JS.inf_times. rewrite (is_zero_false 1) by done.
  replace (JS.is_pos 1) with true by done.
  cbn. f_equal. ring.
Qed.

(** Not-a-number goes through every scale. *)
Lemma apply_NaN (s : D3.Scale) : D3.apply s JS.NaN = JS.NaN.
Proof.
  unfold D3.apply, D3.uninterpolateNumber, D3.interpolateNumber.
  destruct (D3.range s) as [[] []]; cbn; done.
Qed.

Lemma spec_scale_0 (m : Qc) :
  m ≠ 0%Qc → spec_scale (JS.Fin m) (JS.of_Z 0) = JS.of_Z 4.
Proof.
  intros Hm. unfold spec_scale, JS.of_Z. cbn [JS.div].
  rewrite (is_zero_false _ Hm). cbn. f_equal.
  rewrite Qc_of_Z_0. field. done.
Qed.

Lemma spec_scale_top (m : Qc) :
  m ≠ 0%Qc → spec_scale (JS.Fin m) (JS.Fin m) = JS.of_Z 96.
Proof.
  intros Hm. unfold spec_scale, JS.of_Z. cbn [JS.div].
  rewrite (is_zero_false _ Hm). cbn. f_equal.
  replace (Qc_of_Z 96) with (Qc_of_Z 4 + Qc_of_Z 92)%Qc
    by (by apply Qc_is_canon).
  field. done.
Qed.

(** ** The maximum *)

Lemma gtb_Fin (p q : Qc) : JS.gtb (JS.Fin p) (JS.Fin q) = bool_decide (q < p)%Qc.
Proof. done. Qed.

Lemma geb_refl (x : JS.num) : x ≠ JS.NaN → JS.geb x x = true.
Proof.
  destruct x as [q| | |]; try done; intros _; cbn.
  rewrite bool_decide_eq_false_2; [done|]. apply (irreflexivity Qclt).
Qed.

Section max_facts.
Context {A : Type} (f : A → JS.num).

Lemma max_rest_finite (a : Qc) (l : list A) :
  (∀ x, x ∈ l → ∃ q, f x = JS.Fin q) →
  ∃ m, D3.max_rest f (JS.Fin a) l = JS.Fin m ∧ (a ≤ m)%Qc ∧
       (∀ x, x ∈ l → ∃ q, f x = JS.Fin q ∧ (q ≤ m)%Qc) ∧
       (m = a ∨ ∃ x, x ∈ l ∧ f x = JS.Fin m).
Proof.
  revert a. induction l as [|x l IH]; intros a Hfin.
  - exists a. split_and!; [done|done| |by left].
    intros x Hx. by apply elem_of_nil in Hx.
  - destruct (Hfin x) as [q Hq]; [by left|].
    assert (Hl : ∀ y, y ∈ l → ∃ q, f y = JS.Fin q)
      by (intros y Hy; apply Hfin; by right).
    cbn [D3.max_rest]. rewrite Hq, gtb_Fin. case_bool_decide as Hlt.
    + destruct (IH q Hl) as (m & Hm & Hle & Hall & Hin).
      exists m. split_and!; [done| | |].
      * apply Qclt_le_weak. by apply Qclt_le_trans with q.
      * intros y [->|Hy]%elem_of_cons; [by exists q|by apply Hall].
      * right. destruct Hin as [->|(y & Hy & Hfy)].
        -- exists x. split; [by left|done].
        -- exists y. split; [by right|done].
    + destruct (IH a Hl) as (m & Hm & Hle & Hall & Hin).
      exists m. split_and!; [done|done| |].
      * intros y [->|Hy]%elem_of_cons; [|by apply Hall].
        exists q. split; [done|]. apply Qcle_trans with a; [|done].
        by apply Qcnot_lt_le.
      * destruct Hin as [->|(y & Hy & Hfy)]; [by left|].
        right. exists y. split; [by right|done].
Qed.

(** Over a non-empty array of finite numbers [d3.max] is the greatest. *)
Lemma max_finite (l : list A) :
  l ≠ [] → (∀ x, x ∈ l → ∃ q, f x = JS.Fin q) →
  ∃ m, D3.max l f = JS.VNumber (JS.Fin m) ∧
       (∀ x, x ∈ l → ∃ q, f x = JS.Fin q ∧ (q ≤ m)%Qc) ∧
       (∃ x, x ∈ l ∧ f x = JS.Fin m).
Proof.
  destruct l as [|x l]; [done|]. intros _ Hfin.
  destruct (Hfin x) as [q Hq]; [by left|].
  destruct (max_rest_finite q l) as (m & Hm & Hle & Hall & Hin).
  { intros y Hy. apply Hfin. by right. }
  exists m. cbn [D3.max]. rewrite Hq, geb_refl, Hm by done.
  split_and!; [done| |].
  - intros y [->|Hy]%elem_of_cons; [by exists q|by apply Hall].
  - destruct Hin as [->|(y & Hy & Hfy)].
    + exists x. split; [by left|done].
    + exists y. split; [by right|done].
Qed.

Lemma max_rest_skips_NaN (a : JS.num) (l : list A) :
  D3.max_rest f a l = D3.max_rest f a (filter (λ x, f x ≠ JS.NaN) l).
Proof.
  revert a. induction l as [|x l IH]; intros a; [done|].
  destruct (decide (f x = JS.NaN)) as [Hx|Hx].
  - rewrite filter_cons_False by (by intros ?). cbn [D3.max_rest].
    rewrite Hx. replace (JS.gtb JS.NaN a) with false by (by destruct a).
    apply IH.
  - rewrite filter_cons_True by done. cbn [D3.max_rest].
    destruct (JS.gtb (f x) a); apply IH.
Qed.

(** [d3.max] does not see the elements that map to not-a-number. *)
Lemma max_skips_NaN (l : list A) :
  D3.max l f = D3.max (filter (λ x, f x ≠ JS.NaN) l) f.
Proof.
  induction l as [|x l IH]; [done|].
  destruct (decide (f x = JS.NaN)) as [Hx|Hx].
  - rewrite filter_cons_False by (by intros ?). cbn [D3.max].
    by rewrite Hx.
  - rewrite filter_cons_True by done. cbn [D3.max].
    rewrite geb_refl by done. by rewrite max_rest_skips_NaN.
Qed.
End max_facts.

Lemma elem_of_map_dataset (d : gmap string string) (dom : list DOM.Element) :
  d ∈ map DOM.dataset dom → ∃ e, e ∈ dom ∧ DOM.dataset e = d.
Proof.
  intros Hd. apply list_elem_of_In, in_map_iff in Hd as (e & He & Hin).
  exists e. split; [by apply list_elem_of_In|done].
Qed.

Lemma drawn_ext (s1 s2 : JS.num → JS.num) (dom : list DOM.Element) :
  s1 (JS.of_Z 0) = s2 (JS.of_Z 0) →
  (∀ e, e ∈ dom → s1 (score (DOM.dataset e)) = s2 (score (DOM.dataset e))) →
  map (drawn s1) dom = map (drawn s2) dom.
Proof.
  intros H0 Hall. apply map_ext_in. intros e He%list_elem_of_In.
  unfold drawn. by rewrite H0, (Hall e He).
Qed.

(** ** The maximum and the scale, whatever the scores *)

Lemma gtb_NaN_l (x : JS.num) : JS.gtb JS.NaN x = false.
Proof. by destruct x. Qed.

Lemma gtb_lt_le_trans (a b m : JS.num) :
  JS.gtb b a = true → JS.gtb b m = false → JS.gtb a m = false.
Proof.
  destruct a as [p| | |], b as [q| | |], m as [r| | |]; cbn; try done.
  intros H1%bool_decide_eq_true H2%bool_decide_eq_false.
  apply bool_decide_eq_false. intros H3. apply H2.
  by apply Qclt_trans with p.
Qed.

Lemma gtb_le_le_trans (a b m : JS.num) :
  JS.gtb b a = false → JS.gtb a m = false → a ≠ JS.NaN →
  JS.gtb b m = false.
Proof.
  destruct a as [p| | |], b as [q| | |], m as [r| | |]; cbn; try done.
  intros H1%bool_decide_eq_false H2%bool_decide_eq_false _.
  apply bool_decide_eq_false. intros H3. apply H1.
  apply Qcle_lt_trans with r; [by apply Qcnot_lt_le|done].
Qed.

Lemma geb_false_NaN (x : JS.num) : JS.geb x x = false → x = JS.NaN.
Proof.
  intros H. destruct (decide (x = JS.NaN)) as [|Hx]; [done|].
  by rewrite geb_refl in H.
Qed.

Section max_any.
Context {A : Type} (f : A → JS.num).

Lemma max_rest_spec (a : JS.num) (l : list A) :
  a ≠ JS.NaN →
  D3.max_rest f a l ≠ JS.NaN
  ∧ JS.gtb a (D3.max_rest f a l) = false
  ∧ (∀ x, x ∈ l → JS.gtb (f x) (D3.max_rest f a l) = false)
  ∧ (D3.max_rest f a l = a ∨ ∃ x, x ∈ l ∧ f x = D3.max_rest f a l).
Proof.
  revert a. induction l as [|x l IH]; intros a Ha; cbn [D3.max_rest].
  - split_and!; [done| | |by left].
    + destruct a as [p| | |]; try done. cbn.
      apply bool_decide_eq_false, (irreflexivity Qclt).
    + intros x Hx. by apply elem_of_nil in Hx.
  - destruct (JS.gtb (f x) a) eqn:Hgt.
    + assert (Hb : f x ≠ JS.NaN).
      { intros Hb. by rewrite Hb, gtb_NaN_l in Hgt. }
      destruct (IH (f x) Hb) as (Hm & Hbm & Hall & Hin).
      split_and!; [done| | |].
      * by apply (gtb_lt_le_trans a (f x)).
      * intros y [->|Hy]%elem_of_cons; [done|by apply Hall].
      * right. destruct Hin as [->|(y & Hy & Hfy)].
        -- exists x. split; [by left|done].
        -- exists y. split; [by right|done].
    + destruct (IH a Ha) as (Hm & Ham & Hall & Hin).
      split_and!; [done|done| |].
      * intros y [->|Hy]%elem_of_cons; [|by apply Hall].
        by apply (gtb_le_le_trans a).
      * destruct Hin as [->|(y & Hy & Hfy)]; [by left|].
        right. exists y. split; [by right|done].
Qed.

(** What [d3.max] returns is a number, one of the values, and no value is
    greater. *)
Lemma max_spec (l : list A) (m : JS.num) :
  D3.max l f = JS.VNumber m →
  m ≠ JS.NaN
  ∧ (∃ x, x ∈ l ∧ f x = m)
  ∧ (∀ x, x ∈ l → JS.gtb (f x) m = false).
Proof.
  induction l as [|x l IH]; [done|]. cbn [D3.max].
  destruct (JS.geb (f x) (f x)) eqn:Hge.
  - intros [= <-].
    assert (Hb : f x ≠ JS.NaN) by (by intros Hb; rewrite Hb in Hge).
    destruct (max_rest_spec (f x) l Hb) as (Hm & Hbm & Hall & Hin).
    split_and!; [done| |].
    + destruct Hin as [->|(y & Hy & Hfy)].
      * exists x. split; [by left|done].
      * exists y. split; [by right|done].
    + intros y [->|Hy]%elem_of_cons; [done|by apply Hall].
  - intros Hmax. destruct (IH Hmax) as (Hm & (y & Hy & Hfy) & Hall).
    split_and!; [done| |].
    + exists y. split; [by right|done].
    + intros z [->|Hz]%elem_of_cons; [|by apply Hall].
      by rewrite (geb_false_NaN _ Hge), gtb_NaN_l.
Qed.

(** [d3.max] is [undefined] only when no value is a number. *)
Lemma max_undefined (l : list A) :
  D3.max l f = JS.VUndefined → ∀ x, x ∈ l → f x = JS.NaN.
Proof.
  induction l as [|x l IH]; intros Hmax y Hy.
  - by apply elem_of_nil in Hy.
  - cbn [D3.max] in Hmax. destruct (JS.geb (f x) (f x)) eqn:Hge; [done|].
    apply elem_of_cons in Hy as [->|Hy]; [by apply geb_false_NaN|].
    by apply IH.
Qed.

Lemma max_cases (l : list A) :
  (∃ m, D3.max l f = JS.VNumber m) ∨ D3.max l f = JS.VUndefined.
Proof.
  induction l as [|x l IH]; [by right|]. cbn [D3.max].
  destruct (JS.geb (f x) (f x)); [left; by eexists|done].
Qed.
End max_any.

Lemma apply_infinite_max rows (maxScore : JS.num) (q : Qc) :
  D3.max rows score = JS.VNumber maxScore →
  maxScore = JS.PInf ∨ maxScore = JS.NInf →
  D3.apply (build_scale rows) (JS.Fin q) = JS.of_Z 4
  ∧ D3.apply (build_scale rows) maxScore = JS.NaN.
Proof.
  intros Hmax Hinf. rewrite build_scale_eq, Hmax.
  unfold D3.apply, D3.uninterpolateNumber, D3.interpolateNumber, JS.of_Z.
  destruct Hinf as [-> | ->]; cbn; (split; [|done]); f_equal;
    rewrite Qc_of_Z_1; ring.
Qed.

Lemma undefined_max_NaN (x : JS.num) rows :
  D3.max rows score = JS.VUndefined →
  D3.apply (build_scale rows) x = JS.NaN.
Proof.
  intros Hmax. rewrite build_scale_eq, Hmax.
  unfold D3.apply, D3.uninterpolateNumber, D3.interpolateNumber. cbn.
  by destruct (JS.sub x (JS.of_Z 0)).
Qed.

(** The scale at 0, whatever number the maximum is. *)
Lemma apply_at_0 rows (maxScore : JS.num) :
  D3.max rows score = JS.VNumber maxScore →
  D3.apply (build_scale rows) (JS.of_Z 0) = JS.of_Z 4.
Proof.
  intros Hmax. destruct (max_spec score rows maxScore Hmax) as (Hm & _ & _).
  destruct maxScore as [m| | |]; [| | |done].
  - destruct (decide (m = 0%Qc)) as [->|Hm0].
    + by apply apply_zero.
    + unfold JS.of_Z at 1. rewrite (apply_nonzero _ m) by done.
      by apply spec_scale_0.
  - by apply (apply_infinite_max rows JS.PInf); [|left].
  - by apply (apply_infinite_max rows JS.NInf); [|right].
Qed.

(** The scale at a finite maximum other than 0. *)
Lemma apply_at_max rows (m : Qc) :
  D3.max rows score = JS.VNumber (JS.Fin m) → m ≠ 0%Qc →
  D3.apply (build_scale rows) (JS.Fin m) = JS.of_Z 96.
Proof.
  intros Hmax Hm. rewrite (apply_nonzero _ m) by done.
  by apply spec_scale_top.
Qed.

(** ** The render pass *)



(** The example in exact arithmetic: [maxScore = 10], and the positions
    before rounding are 22.4, 77.6 and 96. *)
Example lollipop_2_8_10 :
  D3.max (map DOM.dataset rows_2_8_10) score = JS.VNumber (JS.of_Z 10) ∧
  lollipop {| el := Some rows_2_8_10 |} =
  Ok ({| el := Some
           [ DOM.appendChild
               (DOM.appendChild (row "2") (dot (JS.Fin (Q2Qc (112 # 5)))))
               (stick (JS.of_Z 4) (JS.Fin (Q2Qc (112 # 5))));
             DOM.appendChild
               (DOM.appendChild (row "8") (dot (JS.Fin (Q2Qc (388 # 5)))))
               (stick (JS.of_Z 4) (JS.Fin (Q2Qc (388 # 5))));
             DOM.appendChild
               (DOM.appendChild (row "10") (dot (JS.of_Z 96)))
               (stick (JS.of_Z 4) (JS.of_Z 96)) ] |},
      [JS.of_Z 2; JS.of_Z 8; JS.of_Z 10; JS.of_Z 0;
       JS.of_Z 2; JS.of_Z 8; JS.of_Z 10]).
Proof. compute_done. Qed.

(** C1, as stated, fails on a row set whose scores are all zero: the pass
    puts the dot at 4, where the stated formula divides zero by zero. *)
Lemma lollipop_all_zero_off_formula :
  rows_all_zero ≠ [] ∧
  D3.max (map DOM.dataset rows_all_zero) score = JS.VNumber (JS.of_Z 0) ∧
  lollipop {| el := Some rows_all_zero |} =
    Ok ({| el := Some [DOM.appendChild
                         (DOM.appendChild (row "0") (dot (JS.of_Z 4)))
                         (stick (JS.of_Z 4) (JS.of_Z 4))] |},
        [JS.of_Z 0; JS.of_Z 0; JS.of_Z 0]) ∧
  spec_scale (JS.of_Z 0) (JS.of_Z 0) = JS.NaN ∧
  lollipop {| el := Some rows_all_zero |} ≠
    Ok ({| el := Some (map (drawn (spec_scale (JS.of_Z 0))) rows_all_zero) |},
        evaluations rows_all_zero).
Proof. compute_done. Qed.


(** C2 (amended).  For every row set with a row whose score is a number,
    taking [maxScore] as the greatest such score, [scale(0) = 4], and
    [scale(maxScore) = 96] whenever [maxScore] is finite and not zero, on
    the scale the pass builds and on the formula of the specification alike.
    When [maxScore] is zero the built scale maps it to 4, and when it is
    infinite to not-a-number.  When no row has a numeric score [maxScore] is
    undefined and even [scale(0)] is not-a-number. *)
Theorem scale_endpoints (rows : list (gmap string string)) :
  let scale := D3.apply (build_scale rows) in
  (∀ maxScore, D3.max rows score = JS.VNumber maxScore →
     scale (JS.of_Z 0) = JS.of_Z 4
     ∧ (∀ m, maxScore = JS.Fin m → m ≠ 0%Qc →
          scale maxScore = JS.of_Z 96
          ∧ spec_scale maxScore (JS.of_Z 0) = JS.of_Z 4
          ∧ spec_scale maxScore maxScore = JS.of_Z 96)
     ∧ (maxScore = JS.Fin 0 → scale maxScore = JS.of_Z 4)
     ∧ (maxScore = JS.PInf ∨ maxScore = JS.NInf → scale maxScore = JS.NaN))
  ∧ (D3.max rows score = JS.VUndefined →
     (∀ d, d ∈ rows → score d = JS.NaN) ∧ scale (JS.of_Z 0) = JS.NaN).
Proof.
  intros scale. split.
  - intros maxScore Hmax. split_and!.
    + by apply (apply_at_0 rows maxScore).
    + intros m -> Hm. split_and!.
      * by apply apply_at_max.
      * by apply spec_scale_0.
      * by apply spec_scale_top.
    + intros ->. by apply apply_zero.
    + intros Hinf.
      by destruct (apply_infinite_max rows maxScore 0 Hmax Hinf).
  - intros Hmax. split; [by apply max_undefined|].
    by apply undefined_max_NaN.
Qed.

(** The endpoints on a row set with a malformed row: the greatest numeric
    score is 10. *)
Lemma scale_endpoints_witness :
  D3.max (map DOM.dataset rows_one_malformed) score = JS.VNumber (JS.of_Z 10)
  ∧ D3.apply (build_scale (map DOM.dataset rows_one_malformed)) (JS.of_Z 0)
    = JS.of_Z 4
  ∧ D3.apply (build_scale (map DOM.dataset rows_one_malformed)) (JS.of_Z 10)
    = JS.of_Z 96.
Proof.
  assert (Hmax : D3.max (map DOM.dataset rows_one_malformed) score
                 = JS.VNumber (JS.of_Z 10)) by compute_done.
  destruct (scale_endpoints (map DOM.dataset rows_one_malformed)) as [H _].
  destruct (H (JS.of_Z 10) Hmax) as (H0 & Htop & _).
  split_and!; [exact Hmax|exact H0|].
  apply (Htop (Qc_of_Z 10)); [reflexivity|done].
Defined.

(** C2, as stated, fails when [maxScore] is zero: the scale the pass builds
    maps it to 4, and the formula of the specification to not-a-number;
    neither is 96. *)
Lemma scale_top_fails_at_zero :
  map DOM.dataset rows_all_zero ≠ [] ∧
  D3.max (map DOM.dataset rows_all_zero) score = JS.VNumber (JS.of_Z 0) ∧
  D3.apply (build_scale (map DOM.dataset rows_all_zero)) (JS.of_Z 0)
    = JS.of_Z 4 ∧
  D3.apply (build_scale (map DOM.dataset rows_all_zero)) (JS.of_Z 0)
    ≠ JS.of_Z 96 ∧
  spec_scale (JS.of_Z 0) (JS.of_Z 0) ≠ JS.of_Z 96.
Proof. compute_done. Qed.

(** C3 (amended).  When the visible row set is empty the pass succeeds and
    draws nothing.  There is no guard: [maxscore] is [undefined], the scale is
    still built and is evaluated once, at 0, for the [x1] of the lines, where
    it yields not-a-number; the value lands on no element. *)
Theorem lollipop_empty :
  lollipop {| el := Some [] |} = Ok ({| el := Some [] |}, [JS.of_Z 0]) ∧
  D3.max (map DOM.dataset []) score = JS.VUndefined ∧
  D3.apply (build_scale (map DOM.dataset [])) (JS.of_Z 0) = JS.NaN.
Proof. compute_done. Qed.

(** C3, as stated, fails: on the empty row set the pass does evaluate the
    scale. *)
Lemma lollipop_empty_evaluates_scale :
  ¬ ∃ c, lollipop {| el := Some [] |} = Ok (c, []).
Proof.
  intros [c Hc]. rewrite lollipop_eq in Hc. discriminate Hc.
Qed.

(** C4 (amended).  Every pass builds its scale from the data of the rows it
    finds and gives each row one dot and one line positioned by that scale.
    The pass removes nothing: the children a row already has stay, before the
    new ones. *)
Theorem lollipop_appends_to_rows (dom : list DOM.Element) :
  let scale := D3.apply (build_scale (map DOM.dataset dom)) in
  ∃ dom',
    lollipop {| el := Some dom |} = Ok ({| el := Some dom' |}, evaluations dom)
    ∧ List.length dom' = List.length dom
    ∧ ∀ (i : nat) (e : DOM.Element), dom !! i = Some e →
        ∃ e', dom' !! i = Some e'
          ∧ DOM.dataset e' = DOM.dataset e
          ∧ DOM.childNodes e' =
              DOM.childNodes e ++
              [dot (scale (score (DOM.dataset e)));
               stick (scale (JS.of_Z 0)) (scale (score (DOM.dataset e)))].
Proof.
  intros scale. exists (map (drawn scale) dom).
  split_and!; [apply lollipop_eq|apply length_map|].
  intros i e Hi. exists (drawn scale e). split_and!.
  - change (map (drawn scale) dom) with (drawn scale <$> dom).
    by rewrite list_lookup_fmap, Hi.
  - done.
  - unfold drawn. cbn. by rewrite <-app_assoc.
Qed.

(** C4, as stated, fails: a second pass over the same elements leaves the
    dot and the line of the first pass in place, and a row whose data has
    changed since it was drawn keeps the shapes of its old score. *)
Lemma lollipop_keeps_earlier_shapes :
  (∃ c1 log1 c2 log2 e1 e2,
     lollipop {| el := Some rows_2_10 |} = Ok (c1, log1) ∧
     lollipop c1 = Ok (c2, log2) ∧
     el c2 = Some [e1; e2] ∧
     DOM.childNodes e1 =
       [dot (JS.Fin (Q2Qc (112 # 5)));
        stick (JS.of_Z 4) (JS.Fin (Q2Qc (112 # 5)));
        dot (JS.Fin (Q2Qc (112 # 5)));
        stick (JS.of_Z 4) (JS.Fin (Q2Qc (112 # 5)))]) ∧
  (∃ e log,
     lollipop {| el := Some [redrawn_row] |} = Ok ({| el := Some [e] |}, log) ∧
     DOM.childNodes e =
       [dot (JS.Fin (Q2Qc (112 # 5)));
        stick (JS.of_Z 4) (JS.Fin (Q2Qc (112 # 5)));
        dot (JS.of_Z 96);
        stick (JS.of_Z 4) (JS.of_Z 96)]).
Proof.
  split.
  - do 6 eexists. split_and!.
    + apply lollipop_eq.
    + apply lollipop_eq.
    + cbn [el map rows_2_10]. reflexivity.
    + compute_done.
  - do 2 eexists. split; [rewrite lollipop_eq; cbn [map]; reflexivity|].
    compute_done.
Qed.

(** C8 (amended).  A row whose score coerces to not-a-number is not
    skipped: the pass gives it a dot and a line like any other row, with
    not-a-number as the dot's [cx] and the line's [x2].  The scale is built
    from the rows whose score is a number, every other row gets its dot and
    line from it, and the pass completes. *)
Theorem lollipop_NaN_rows (dom : list DOM.Element) :
  let scale :=
    D3.apply (build_scale
                (filter (λ d, score d ≠ JS.NaN) (map DOM.dataset dom))) in
  lollipop {| el := Some dom |} =
    Ok ({| el := Some (map (drawn scale) dom) |}, evaluations dom)
  ∧ ∀ e, e ∈ dom → score (DOM.dataset e) = JS.NaN →
      drawn scale e =
      DOM.appendChild (DOM.appendChild e (dot JS.NaN))
        (stick (scale (JS.of_Z 0)) JS.NaN).
Proof.
  intros scale. split.
  - rewrite lollipop_eq. unfold scale, build_scale.
    by rewrite <-(max_skips_NaN score).
  - intros e _ He. unfold drawn. rewrite He. unfold scale.
    by rewrite apply_NaN.
Qed.

(** C8, as stated, fails: the malformed row is drawn, not skipped. *)
Lemma lollipop_draws_malformed_row :
  score (DOM.dataset (row "abc")) = JS.NaN ∧
  lollipop {| el := Some rows_one_malformed |} =
    Ok ({| el := Some
             [ DOM.appendChild (DOM.appendChild (row "abc") (dot JS.NaN))
                 (stick (JS.of_Z 4) JS.NaN);
               DOM.appendChild (DOM.appendChild (row "10") (dot (JS.of_Z 96)))
                 (stick (JS.of_Z 4) (JS.of_Z 96)) ] |},
        [JS.NaN; JS.of_Z 10; JS.of_Z 0; JS.NaN; JS.of_Z 10]) ∧
  DOM.childNodes
    (DOM.appendChild (DOM.appendChild (row "abc") (dot JS.NaN))
       (stick (JS.of_Z 4) JS.NaN)) ≠ [].
Proof. compute_done. Qed.

(** ** The toggles *)

Lemma gtb_asym (x y : JS.num) : JS.gtb x y = true → JS.gtb y x = false.
Proof.
  destruct x as [p| | |], y as [q| | |]; try done. cbn.
  intros Hlt%bool_decide_eq_true. apply bool_decide_eq_false.
  intros Hlt'. apply (irreflexivity Qclt p). by apply Qclt_trans with q.
Qed.

#[local] Instance before_total (srt : Sorter.t) : Total (Store.before srt).
Proof.
  intros a b. unfold Store.before. destruct (Sorter.direction srt).
  - destruct (JS.gtb (Store.key (Sorter.property srt) a)
                     (Store.key (Sorter.property srt) b)) eqn:E;
      [right; by apply gtb_asym|by left].
  - destruct (JS.gtb (Store.key (Sorter.property srt) b)
                     (Store.key (Sorter.property srt) a)) eqn:E;
      [right; by apply gtb_asym|by left].
Qed.

Lemma visible_single_filter (s : Store.t) (f : Filter.t) :
  Store.filters s = [f] →
  Store.visible s = List.filter (λ r, Store.passes r f) (Store.records s).
Proof.
  intros Hf. unfold Store.visible. rewrite Hf.
  apply filter_ext. intros r. cbn. by rewrite andb_true_r.
Qed.

Lemma eq_literal_same (lit : string) :
  eq_literal (JS.VString lit) lit = true.
Proof. cbn. by apply bool_decide_eq_true. Qed.

Lemma toggleGroupByStem_eq (view : View.t) :
  toggleGroupByStem view =
  {| View.groupedByStem :=
       JS.VBool (negb (JS.ToBoolean (View.groupedByStem view)));
     View.orderedByDiffProp := View.orderedByDiffProp view;
     View.getStore :=
       {| Store.records := Store.records (View.getStore view);
          Store.filters :=
            [lemma_filter (negb (JS.ToBoolean (View.groupedByStem view)))];
          Store.sorters := Store.sorters (View.getStore view);
          Store.loads := Store.loads (View.getStore view) |} |}.
Proof.
  unfold toggleGroupByStem, optionEvent. rewrite eq_literal_same.
  unfold applyFilters, lemma_filter, Store.filter, Store.clearFilter.
  unfold JS.not. cbn. by destruct (JS.ToBoolean (View.groupedByStem view)).
Qed.

(** C5.  The group-by-stem toggle flips [view.groupedByStem], drops every
    filter the store had and leaves exactly one, which keeps the rows whose
    [is_lemmatized] is 1 when the new flag is true and 0 when it is false. *)
Theorem toggleGroupByStem_refilters (view : View.t) :
  let view' := toggleGroupByStem view in
  let grouped := negb (JS.ToBoolean (View.groupedByStem view)) in
  View.groupedByStem view' = JS.VBool grouped
  ∧ View.orderedByDiffProp view' = View.orderedByDiffProp view
  ∧ Store.filters (View.getStore view') = [lemma_filter grouped]
  ∧ Store.records (View.getStore view') = Store.records (View.getStore view)
  ∧ Store.visible (View.getStore view') =
      List.filter
        (λ r, bool_decide
                (JS.get r "is_lemmatized" =
                 JS.VNumber (JS.of_Z (if grouped then 1 else 0))))
        (Store.records (View.getStore view)).
Proof.
  intros view' grouped. unfold view'. rewrite toggleGroupByStem_eq.
  split_and!; try done.
  by rewrite (visible_single_filter _ (lemma_filter grouped)).
Qed.

(** The specification's example: from false to true, only the stem-grouped
    rows stay. *)
Example toggleGroupByStem_fresh :
  Store.visible (View.getStore fresh_view)
    = [lemma_record 0; lemma_record 1] ∧
  Store.visible (View.getStore (toggleGroupByStem fresh_view))
    = [lemma_record 1].
Proof. compute_done. Qed.

(** C6.  The order-by-score toggle flips [view.orderedByDiffProp] and sorts
    the store with one sorter, descending, keyed by [score_sentences] when
    the new flag is true and by [count] when it is false: the records are
    the same, reordered so that none is followed by one of greater key. *)
Theorem toggleOrderByScore_sorts_descending (view : View.t) :
  let view' := toggleOrderByScore view in
  let byScore := negb (JS.ToBoolean (View.orderedByDiffProp view)) in
  let property := if byScore then "score_sentences" else "count" in
  View.orderedByDiffProp view' = JS.VBool byScore
  ∧ View.groupedByStem view' = View.groupedByStem view
  ∧ Store.sorters (View.getStore view') =
      [{| Sorter.property := property; Sorter.direction := DESC |}]
  ∧ Store.filters (View.getStore view') = Store.filters (View.getStore view)
  ∧ Store.records (View.getStore view') ≡ₚ Store.records (View.getStore view)
  ∧ Sorted (λ a b, JS.gtb (Store.key property b) (Store.key property a)
                   = false)
      (Store.records (View.getStore view')).
Proof.
  intros view' byScore property.
  unfold view', toggleOrderByScore, optionEvent.
  replace (eq_literal (JS.VString "order-by-score") "group-by-stem")
    with false by done.
  rewrite eq_literal_same. unfold applySorter, Store.sort, JS.not. cbn.
  fold byScore.
  replace (if byScore then "score_sentences" else "count") with property
    by done.
  split_and!; try done.
  - apply merge_sort_Permutation.
  - apply (Sorted_merge_sort
             (Store.before {| Sorter.property := property;
                              Sorter.direction := DESC |})).
Qed.

(** One toggle orders by score, the next by count, both descending. *)
Example toggleOrderByScore_counted :
  Store.records (View.getStore (toggleOrderByScore counted_view))
    = [word_record 1 5; word_record 2 2; word_record 3 1]
  ∧ Store.records
      (View.getStore (toggleOrderByScore (toggleOrderByScore counted_view)))
    = [word_record 3 1; word_record 2 2; word_record 1 5].
Proof. compute_done. Qed.

(** C7 (amended).  Two group-by-stem toggles in a row bring
    [view.groupedByStem] back to its boolean value and leave the store
    filtered by the one filter of that value.  When the store was filtered
    so before the first toggle, it is back in that state; a store that was
    not (one never filtered, say) is not. *)
Theorem toggleGroupByStem_twice (view : View.t) :
  let view'' := toggleGroupByStem (toggleGroupByStem view) in
  let grouped := JS.ToBoolean (View.groupedByStem view) in
  JS.ToBoolean (View.groupedByStem view'') = grouped
  ∧ Store.filters (View.getStore view'') = [lemma_filter grouped]
  ∧ Store.records (View.getStore view'') = Store.records (View.getStore view)
  ∧ (Store.filters (View.getStore view) = [lemma_filter grouped] →
     View.getStore view'' = View.getStore view).
Proof.
  intros view'' grouped. unfold view''. rewrite !toggleGroupByStem_eq.
  cbn. rewrite negb_involutive. split_and!; try done.
  intros H. unfold grouped in H. rewrite <-H.
  by destruct (View.getStore view).
Qed.

(** C7, as stated, fails on a view whose store was never filtered: before
    the toggles every row is visible, after two of them only the plain
    rows. *)
Lemma toggleGroupByStem_twice_fresh :
  View.groupedByStem (toggleGroupByStem (toggleGroupByStem fresh_view))
    = View.groupedByStem fresh_view ∧
  Store.visible (View.getStore fresh_view)
    = [lemma_record 0; lemma_record 1] ∧
  Store.visible
    (View.getStore (toggleGroupByStem (toggleGroupByStem fresh_view)))
    = [lemma_record 0] ∧
  Store.visible
    (View.getStore (toggleGroupByStem (toggleGroupByStem fresh_view)))
    ≠ Store.visible (View.getStore fresh_view).
Proof. compute_done. Qed.

(** ** The overlay guard *)

Lemma getComponent_Some (key : string) (panel : Panel.t) :
  (∃ c, c ∈ Panel.items panel ∧ Component.itemId c = key) →
  ∃ c, Panel.getComponent key panel = Some c.
Proof.
  intros (c & Hc & Hid). unfold Panel.getComponent.
  destruct (find _ _) as [c'|] eqn:Hfind; [by exists c'|].
  apply list_elem_of_In, (find_none _ _ Hfind c) in Hc.
  by rewrite bool_decide_eq_true_2 in Hc.
Qed.

Lemma getComponent_None (key : string) (panel : Panel.t) :
  Panel.getComponent key panel = None →
  ∀ c, c ∈ Panel.items panel → Component.itemId c ≠ key.
Proof.
  unfold Panel.getComponent. intros Hfind c Hc%list_elem_of_In Hid.
  apply (find_none _ _ Hfind c) in Hc.
  by rewrite bool_decide_eq_true_2 in Hc.
Qed.

(** C9.  On a panel that already holds a component with item id
    [frequent-words-overlay] showing the overlay changes nothing and raises
    nothing.  The panel's children change only when it held no such
    component, and then by the one new overlay, added last. *)
Theorem showFrequentWordsOverlay_guard (panel : Panel.t) (button : JS.value) :
  ((∃ c, c ∈ Panel.items panel ∧ Component.itemId c = overlay_id) →
   showFrequentWordsOverlay panel button = Ok panel)
  ∧ (∀ panel', showFrequentWordsOverlay panel button = Ok panel' →
       panel' ≠ panel →
       (∀ c, c ∈ Panel.items panel → Component.itemId c ≠ overlay_id)
       ∧ ∃ overlay, Component.itemId overlay = overlay_id
                    ∧ panel' = Panel.add overlay panel)
  ∧ ((∀ c, c ∈ Panel.items panel → Component.itemId c ≠ overlay_id) →
     ∀ e, Panel.el panel = Some e →
       let button_el :=
         Panel.down "span.panel-header-menubutton.frequent-words" e in
       showFrequentWordsOverlay panel button =
       Ok (Panel.add
             (Component.showBy button_el
                (frequent_words_overlay panel button_el)) panel)).
Proof.
  unfold showFrequentWordsOverlay. split_and!.
  - intros [c Hc]%getComponent_Some. unfold overlay_id in Hc. by rewrite Hc.
  - intros panel'.
    destruct (Panel.getComponent _ panel) as [c|] eqn:Hget.
    { intros [= ->] Hne. exfalso. by apply Hne. }
    destruct (Panel.el panel) as [e|]; [|done].
    intros [= <-] _. split; [by apply getComponent_None|].
    eexists. split; [|reflexivity]. done.
  - intros Hnone e He.
    destruct (Panel.getComponent _ panel) as [c|] eqn:Hget.
    + apply find_some in Hget as [Hin Hid%bool_decide_eq_true].
      by destruct (Hnone c (proj2 (list_elem_of_In _ _) Hin)).
    + by rewrite He.
Qed.

Lemma showFrequentWordsOverlay_guard_witness :
  (∃ c, c ∈ Panel.items panel_with_overlay ∧ Component.itemId c = overlay_id)
  ∧ showFrequentWordsOverlay panel_with_overlay JS.VNull
    = Ok panel_with_overlay
  ∧ (∀ c, c ∈ Panel.items bare_panel → Component.itemId c ≠ overlay_id)
  ∧ showFrequentWordsOverlay bare_panel JS.VNull = Ok panel_with_overlay.
Proof.
  assert (Hin : ∃ c, c ∈ Panel.items panel_with_overlay
                     ∧ Component.itemId c = overlay_id).
  { eexists. split; [by left|done]. }
  assert (Hnone : ∀ c, c ∈ Panel.items bare_panel
                       → Component.itemId c ≠ overlay_id).
  { intros c Hc. by apply elem_of_nil in Hc. }
  split_and!; [exact Hin| |exact Hnone|].
  - destruct (showFrequentWordsOverlay_guard panel_with_overlay JS.VNull)
      as (Hnoop & _ & _).
    apply Hnoop, Hin.
  - destruct (showFrequentWordsOverlay_guard bare_panel JS.VNull)
      as (_ & _ & Hadd).
    exact (Hadd Hnone _ eq_refl).
Defined.

(** ** The slice loader *)

(** C10.  When the panel's model reports the same slice,
    [getFrequentWordForSlice] leaves the model and its three stores as they
    were: no load is requested.  When it reports a new slice, each of
    [NStore], [VStore] and [JStore] gets one load with the same parameters
    and is otherwise unchanged. *)
Theorem getFrequentWordForSlice_loads (env : Env) (panel : Panel.t)
    (formValues : FormValues.t) :
  let model := Panel.getLayoutPanelModel panel in
  let model' :=
    Panel.getLayoutPanelModel
      (getFrequentWordForSlice env panel formValues) in
  (LayoutPanelModel.isSameSlice model = true → model' = model)
  ∧ (LayoutPanelModel.isSameSlice model = false →
     let params := slice_params env formValues in
     LayoutPanelModel.NStore model' =
       Store.load params (LayoutPanelModel.NStore model)
     ∧ LayoutPanelModel.VStore model' =
         Store.load params (LayoutPanelModel.VStore model)
     ∧ LayoutPanelModel.JStore model' =
         Store.load params (LayoutPanelModel.JStore model)
     ∧ LayoutPanelModel.getPhrasesStore model' =
         LayoutPanelModel.getPhrasesStore model)
  ∧ (model' ≠ model → LayoutPanelModel.isSameSlice model = false).
Proof.
  intros model model'. unfold model', getFrequentWordForSlice.
  cbn [Panel.getLayoutPanelModel]. fold model.
  destruct (LayoutPanelModel.isSameSlice model) eqn:Hsame; cbn [negb].
  - split_and!; [done|done|]. intros Hne. exfalso. by apply Hne.
  - split_and!; [done| |done]. intros _.
    unfold slice_params, Ext_apply. cbn.
    by destruct (FormValues.search formValues) as [[|first rest]|].
Qed.

Lemma getFrequentWordForSlice_loads_witness :
  LayoutPanelModel.isSameSlice (Panel.getLayoutPanelModel same_slice_panel)
    = true
  ∧ Panel.getLayoutPanelModel
      (getFrequentWordForSlice some_env same_slice_panel some_query)
    = Panel.getLayoutPanelModel same_slice_panel
  ∧ LayoutPanelModel.isSameSlice (Panel.getLayoutPanelModel bare_panel)
    = false
  ∧ LayoutPanelModel.NStore
      (Panel.getLayoutPanelModel
         (getFrequentWordForSlice some_env bare_panel some_query))
    = Store.load (slice_params some_env some_query) empty_store.
Proof.
  split_and!; [reflexivity| |reflexivity|].
  - destruct (getFrequentWordForSlice_loads some_env same_slice_panel
                some_query) as (Hsame & _ & _).
    apply Hsame. reflexivity.
  - destruct (getFrequentWordForSlice_loads some_env bare_panel some_query)
      as (_ & Hnew & _).
    destruct Hnew as (HN & _); [reflexivity|]. exact HN.
Defined.

(** The parameters of the loads: the query's own fields over the instance
    and the user, the first search term over both. *)
Example slice_params_some_query :
  slice_params some_env some_query =
  {[ "instance" := JS.VString "corpus"; "user" := JS.VString "reader";
     "collection" := JS.VString "all"; "gov" := JS.VString "word" ]}.
Proof. compute_done. Qed.

(** * Further properties of the handlers *)

(** ** The toggles, composed *)

Lemma applyFilters_eq (view : View.t) :
  applyFilters view =
  {| View.groupedByStem := View.groupedByStem view;
     View.orderedByDiffProp := View.orderedByDiffProp view;
     View.getStore :=
       {| Store.records := Store.records (View.getStore view);
          Store.filters :=
            [lemma_filter (JS.ToBoolean (View.groupedByStem view))];
          Store.sorters := Store.sorters (View.getStore view);
          Store.loads := Store.loads (View.getStore view) |} |}.
Proof.
  unfold applyFilters, lemma_filter, Store.filter, Store.clearFilter. cbn.
  by destruct (JS.ToBoolean (View.groupedByStem view)).
Qed.

Lemma toggleOrderByScore_eq (view : View.t) :
  toggleOrderByScore view =
  let byScore := negb (JS.ToBoolean (View.orderedByDiffProp view)) in
  {| View.groupedByStem := View.groupedByStem view;
     View.orderedByDiffProp := JS.VBool byScore;
     View.getStore :=
       Store.sort (score_sorter byScore) (View.getStore view) |}.
Proof.
  unfold toggleOrderByScore, optionEvent.
  replace (eq_literal (JS.VString "order-by-score") "group-by-stem")
    with false by done.
  rewrite eq_literal_same. unfold applySorter, score_sorter, JS.not. cbn.
  by destruct (JS.ToBoolean (View.orderedByDiffProp view)).
Qed.

(** X1.  Applying the lemma filter is idempotent: whatever filters the store
    had, a second [applyFilters] leaves the view as the first left it. *)
Theorem applyFilters_idempotent (view : View.t) :
  applyFilters (applyFilters view) = applyFilters view.
Proof. by rewrite !applyFilters_eq. Qed.

(** X2.  The two toggles commute: grouping by stem and then ordering by score
    leaves the view in the state that ordering and then grouping does. *)
Theorem toggles_commute (view : View.t) :
  toggleOrderByScore (toggleGroupByStem view) =
  toggleGroupByStem (toggleOrderByScore view).
Proof.
  rewrite (toggleOrderByScore_eq (toggleGroupByStem view)).
  rewrite (toggleGroupByStem_eq (toggleOrderByScore view)).
  by rewrite toggleGroupByStem_eq, toggleOrderByScore_eq.
Qed.

Lemma filter_Permutation_bool {A} (f : A → bool) (l1 l2 : list A) :
  l1 ≡ₚ l2 → List.filter f l1 ≡ₚ List.filter f l2.
Proof.
  induction 1 as [|x l1 l2 _ IH|x y l|l1 l2 l3 _ IH1 _ IH2]; cbn.
  - done.
  - destruct (f x); [by constructor|done].
  - destruct (f x), (f y); try done. apply perm_swap.
  - by etrans.
Qed.

(** X3.  The order-by-score toggle changes the order of the visible rows
    only: the rows the filters let through are the same as before. *)
Theorem toggleOrderByScore_keeps_visible (view : View.t) :
  Store.visible (View.getStore (toggleOrderByScore view))
  ≡ₚ Store.visible (View.getStore view).
Proof.
  rewrite toggleOrderByScore_eq. unfold Store.visible, Store.sort. cbn.
  apply filter_Permutation_bool, merge_sort_Permutation.
Qed.

Lemma gtb_false_Fin (x y : Qc) :
  JS.gtb (JS.Fin y) (JS.Fin x) = false → (y ≤ x)%Qc.
Proof.
  rewrite gtb_Fin. intros H%bool_decide_eq_false. by apply Qcnot_lt_le.
Qed.

Lemma descending_trans (p : string) : Transitive (descending p).
Proof.
  intros a b c (x & y & Ha & Hb & Hyx) (y' & z & Hb' & Hc & Hzy).
  rewrite Hb in Hb'. injection Hb' as <-.
  exists x, z. split_and!; [done..|]. by apply Qcle_trans with y.
Qed.

Lemma Sorted_desc_numeric (p : string) (l : list (gmap string JS.value)) :
  (∀ r, r ∈ l → ∃ q, Store.key p r = JS.Fin q) →
  Sorted (Store.before {| Sorter.property := p; Sorter.direction := DESC |}) l
  → StronglySorted (descending p) l.
Proof.
  intros Hnum Hsorted.
  apply (@Sorted_StronglySorted _ _ (descending_trans p)).
  induction Hsorted as [|a l Hl IH Hhd]; [constructor|].
  constructor.
  - apply IH. intros r Hr. apply Hnum. by right.
  - destruct Hhd as [|b l Hab]; constructor.
    destruct (Hnum a) as [x Hx]; [by left|].
    destruct (Hnum b) as [y Hy]; [right; by left|].
    exists x, y. split_and!; [done..|].
    unfold Store.before in Hab. cbn in Hab. rewrite Hx, Hy in Hab.
    by apply gtb_false_Fin.
Qed.

Lemma StronglySorted_filter_bool {A} (R : relation A) (f : A → bool) l :
  StronglySorted R l → StronglySorted R (List.filter f l).
Proof.
  induction 1 as [|x l _ IH Hall]; cbn; [constructor|].
  destruct (f x); [|done]. constructor; [done|].
  apply Forall_forall. intros y [Hy _]%list_elem_of_In%filter_In.
  by apply (proj1 (Forall_forall _ _) Hall), list_elem_of_In.
Qed.

(** X4.  When the field the toggle sorts by holds a finite number in every
    record, the rows visible after the order-by-score toggle stand in
    descending order of that field: no visible row has a smaller key than
    any row after it. *)
Theorem toggleOrderByScore_visible_descending (view : View.t) :
  let p := sort_property (negb (JS.ToBoolean (View.orderedByDiffProp view))) in
  (∀ r, r ∈ Store.records (View.getStore view) →
        ∃ q, Store.key p r = JS.Fin q) →
  StronglySorted (descending p)
    (Store.visible (View.getStore (toggleOrderByScore view))).
Proof.
  intros p Hnum. rewrite toggleOrderByScore_eq.
  unfold Store.visible, Store.sort. cbn.
  apply StronglySorted_filter_bool, Sorted_desc_numeric.
  - intros r Hr. apply Hnum.
    by rewrite (merge_sort_Permutation (Store.before (score_sorter _))) in Hr.
  - apply (Sorted_merge_sort (Store.before (score_sorter _))).
Qed.

Lemma toggleOrderByScore_visible_descending_witness :
  (∀ r, r ∈ Store.records (View.getStore counted_view) →
        ∃ q, Store.key "score_sentences" r = JS.Fin q)
  ∧ StronglySorted (descending "score_sentences")
      (Store.visible (View.getStore (toggleOrderByScore counted_view))).
Proof.
  assert (Hnum : ∀ r, r ∈ Store.records (View.getStore counted_view) →
                      ∃ q, Store.key "score_sentences" r = JS.Fin q).
  { intros r Hr. cbn in Hr.
    repeat (apply elem_of_cons in Hr as [->|Hr]); [eexists; reflexivity..|].
    by apply elem_of_nil in Hr. }
  split; [exact Hnum|].
  exact (toggleOrderByScore_visible_descending counted_view Hnum).
Defined.

Lemma visible_after_toggle (view : View.t) :
  Store.visible (View.getStore (toggleGroupByStem view)) =
  List.filter
    (λ r, Store.passes r
            (lemma_filter (negb (JS.ToBoolean (View.groupedByStem view)))))
    (Store.records (View.getStore view)).
Proof.
  rewrite toggleGroupByStem_eq.
  by rewrite (visible_single_filter _
                (lemma_filter
                   (negb (JS.ToBoolean (View.groupedByStem view))))).
Qed.

Lemma passes_lemma_filter_exclusive (r : gmap string JS.value) (b : bool) :
  Store.passes r (lemma_filter b) = true →
  Store.passes r (lemma_filter (negb b)) = false.
Proof.
  unfold Store.passes. cbn. intros H%bool_decide_eq_true.
  apply bool_decide_eq_false. rewrite H. by destruct b.
Qed.

(** X5.  No row is visible both after a group-by-stem toggle and after the
    next one: the two toggles show disjoint sets of rows. *)
Theorem toggleGroupByStem_alternates (view : View.t)
    (r : gmap string JS.value) :
  r ∈ Store.visible (View.getStore (toggleGroupByStem view)) →
  r ∉ Store.visible (View.getStore (toggleGroupByStem (toggleGroupByStem view))).
Proof.
  rewrite (visible_after_toggle (toggleGroupByStem view)).
  rewrite visible_after_toggle, toggleGroupByStem_eq. cbn.
  intros [_ H1]%list_elem_of_In%filter_In [_ H2]%list_elem_of_In%filter_In.
  apply passes_lemma_filter_exclusive in H1. congruence.
Qed.

Lemma toggleGroupByStem_alternates_witness :
  lemma_record 1 ∈ Store.visible (View.getStore (toggleGroupByStem fresh_view))
  ∧ lemma_record 1
    ∉ Store.visible
        (View.getStore (toggleGroupByStem (toggleGroupByStem fresh_view))).
Proof.
  assert (H : lemma_record 1
              ∈ Store.visible (View.getStore (toggleGroupByStem fresh_view))).
  { apply list_elem_of_In. vm_compute. by left. }
  split; [exact H|].
  exact (toggleGroupByStem_alternates fresh_view (lemma_record 1) H).
Defined.

Lemma filter_split_Permutation {A} (f g : A → bool) (l : list A) :
  (∀ x, x ∈ l → g x = negb (f x)) →
  List.filter f l ++ List.filter g l ≡ₚ l.
Proof.
  induction l as [|x l IH]; intros Hfg; [done|]. cbn.
  rewrite (Hfg x) by (by left).
  assert (IH' : List.filter f l ++ List.filter g l ≡ₚ l)
    by (apply IH; intros y Hy; apply Hfg; by right).
  destruct (f x); cbn.
  - by constructor.
  - rewrite <-Permutation_middle. by constructor.
Qed.

(** X6.  When every record's [is_lemmatized] is 0 or 1, two successive
    group-by-stem toggles show, between them, every record exactly once:
    the rows visible after the first and after the second make up the
    store's records. *)
Theorem toggleGroupByStem_partitions (view : View.t) :
  (∀ r, r ∈ Store.records (View.getStore view) →
        JS.get r "is_lemmatized" = JS.VNumber (JS.of_Z 0)
        ∨ JS.get r "is_lemmatized" = JS.VNumber (JS.of_Z 1)) →
  Store.visible (View.getStore (toggleGroupByStem view))
  ++ Store.visible (View.getStore (toggleGroupByStem (toggleGroupByStem view)))
  ≡ₚ Store.records (View.getStore view).
Proof.
  intros Hbit. rewrite (visible_after_toggle (toggleGroupByStem view)).
  rewrite visible_after_toggle, toggleGroupByStem_eq. cbn.
  apply filter_split_Permutation. intros r Hr.
  unfold Store.passes. cbn. rewrite negb_involutive.
  destruct (Hbit r Hr) as [-> | ->];
    by destruct (JS.ToBoolean (View.groupedByStem view)).
Qed.

Lemma toggleGroupByStem_partitions_witness :
  (∀ r, r ∈ Store.records (View.getStore fresh_view) →
        JS.get r "is_lemmatized" = JS.VNumber (JS.of_Z 0)
        ∨ JS.get r "is_lemmatized" = JS.VNumber (JS.of_Z 1))
  ∧ Store.visible (View.getStore (toggleGroupByStem fresh_view))
    ++ Store.visible
         (View.getStore (toggleGroupByStem (toggleGroupByStem fresh_view)))
    ≡ₚ Store.records (View.getStore fresh_view).
Proof.
  assert (Hbit : ∀ r, r ∈ Store.records (View.getStore fresh_view) →
                   JS.get r "is_lemmatized" = JS.VNumber (JS.of_Z 0)
                   ∨ JS.get r "is_lemmatized" = JS.VNumber (JS.of_Z 1)).
  { intros r Hr. cbn in Hr.
    apply elem_of_cons in Hr as [->|Hr]; [by left|].
    apply elem_of_cons in Hr as [->|Hr]; [by right|].
    by apply elem_of_nil in Hr. }
  split; [exact Hbit|].
  exact (toggleGroupByStem_partitions fresh_view Hbit).
Defined.

(** X7.  An option whose action is a primitive value ([undefined], [null],
    a boolean, a number or a string) other than the strings [group-by-stem]
    and [order-by-score] leaves the view as it is: no flag flips, nothing is
    filtered or sorted.  (An object is outside this statement: [==] would
    first convert it to a primitive.) *)
Theorem optionEvent_other_action (view : View.t) (action : JS.value) :
  action ≠ JS.VString "group-by-stem" →
  action ≠ JS.VString "order-by-score" →
  optionEvent view action = view.
Proof.
  intros Hg Ho. unfold optionEvent.
  assert (Hlit : ∀ lit, action ≠ JS.VString lit → eq_literal action lit = false).
  { intros lit Hne. destruct action as [| | | |s]; try done. cbn.
    apply bool_decide_eq_false. intros ->. by apply Hne. }
  by rewrite !Hlit.
Qed.

Lemma optionEvent_other_action_witness :
  JS.VNumber (JS.of_Z 0) ≠ JS.VString "group-by-stem"
  ∧ JS.VNumber (JS.of_Z 0) ≠ JS.VString "order-by-score"
  ∧ optionEvent fresh_view (JS.VNumber (JS.of_Z 0)) = fresh_view.
Proof.
  split_and!; [done|done|].
  by apply (optionEvent_other_action fresh_view (JS.VNumber (JS.of_Z 0))).
Defined.

(** ** The render pass: where the dots fall *)

Lemma max_rows_finite (dom : list DOM.Element) :
  dom ≠ [] →
  (∀ e, e ∈ dom → ∃ q, score (DOM.dataset e) = JS.Fin q) →
  ∃ m : Qc,
    D3.max (map DOM.dataset dom) score = JS.VNumber (JS.Fin m)
    ∧ (∀ e, e ∈ dom → ∃ q, score (DOM.dataset e) = JS.Fin q ∧ (q ≤ m)%Qc)
    ∧ (∃ e, e ∈ dom ∧ score (DOM.dataset e) = JS.Fin m).
Proof.
  intros Hne Hfin.
  destruct (max_finite score (map DOM.dataset dom)) as (m & Hmax & Hle & Hin).
  { by destruct dom. }
  { intros d (e & He & <-)%elem_of_map_dataset. by apply Hfin. }
  exists m. split_and!; [done| |].
  - intros e He. apply Hle, list_elem_of_In, in_map, list_elem_of_In, He.
  - destruct Hin as (d & (e & He & <-)%elem_of_map_dataset & Hd). by exists e.
Qed.

Lemma spec_scale_Fin (m q : Qc) :
  m ≠ 0%Qc →
  spec_scale (JS.Fin m) (JS.Fin q)
  = JS.Fin (Qc_of_Z 4 + q / m * Qc_of_Z 92)%Qc.
Proof.
  intros Hm. unfold spec_scale, JS.of_Z. cbn [JS.div].
  by rewrite (is_zero_false _ Hm).
Qed.

Lemma Qc_of_Z_96 : Qc_of_Z 96 = (Qc_of_Z 4 + Qc_of_Z 92)%Qc.
Proof. by apply Qc_is_canon. Qed.

Lemma Qc_92_nonneg : (0 ≤ Qc_of_Z 92)%Qc.
Proof. rewrite <-Z2Qc_inj_0. by apply Z2Qc_inj_le. Qed.

Lemma ratio_in_unit (m q : Qc) :
  (0 < m)%Qc → (0 ≤ q)%Qc → (q ≤ m)%Qc → (0 ≤ q / m ∧ q / m ≤ 1)%Qc.
Proof.
  intros Hm Hq Hqm. unfold Qcdiv. split.
  - apply Qcmult_nonneg_nonneg; [done|]. by apply Qclt_le_weak, Qcinv_pos.
  - rewrite <-(Qcmult_inv_r m) by (by apply not_eq_sym, Qclt_not_eq).
    apply Qcmult_le_mono_nonneg_r; [|done].
    by apply Qclt_le_weak, Qcinv_pos.
Qed.

Lemma scale_in_box rows (m q : Qc) :
  D3.max rows score = JS.VNumber (JS.Fin m) →
  (0 ≤ q)%Qc → (q ≤ m)%Qc →
  ∃ x, D3.apply (build_scale rows) (JS.Fin q) = JS.Fin x
       ∧ (Qc_of_Z 4 ≤ x)%Qc ∧ (x ≤ Qc_of_Z 96)%Qc.
Proof.
  intros Hmax Hq Hqm. destruct (decide (m = 0%Qc)) as [->|Hm].
  - exists (Qc_of_Z 4). split_and!; [by apply apply_zero|done|].
    by apply Z2Qc_inj_le.
  - assert (Hpos : (0 < m)%Qc).
    { destruct (Qcle_lt_or_eq 0 m) as [H|H];
        [by apply Qcle_trans with q|done|by destruct Hm]. }
    destruct (ratio_in_unit m q Hpos Hq Hqm) as [H0 H1].
    eexists. rewrite (apply_nonzero _ m), spec_scale_Fin by done.
    split_and!; [done| |].
    + rewrite <-(Qcplus_0_r (Qc_of_Z 4)) at 1. apply Qcplus_le_mono_l.
      apply Qcmult_nonneg_nonneg; [done|apply Qc_92_nonneg].
    + rewrite Qc_of_Z_96. apply Qcplus_le_mono_l.
      rewrite <-(Qcmult_1_l (Qc_of_Z 92)) at 2.
      apply Qcmult_le_mono_nonneg_r; [apply Qc_92_nonneg|done].
Qed.

(** X8.  Over a non-empty row set of finite, non-negative scores every dot
    stays inside the 100-wide drawing: the line starts at 4 and each dot's
    centre lies between 4 and 96, so a dot of radius 4 never leaves
    [0, 100]. *)
Theorem lollipop_dots_in_box (dom : list DOM.Element) :
  dom ≠ [] →
  (∀ e, e ∈ dom → ∃ q, score (DOM.dataset e) = JS.Fin q ∧ (0 ≤ q)%Qc) →
  let scale := D3.apply (build_scale (map DOM.dataset dom)) in
  lollipop {| el := Some dom |} =
    Ok ({| el := Some (map (drawn scale) dom) |}, evaluations dom)
  ∧ scale (JS.of_Z 0) = JS.of_Z 4
  ∧ ∀ e, e ∈ dom →
      ∃ x, scale (score (DOM.dataset e)) = JS.Fin x
           ∧ (Qc_of_Z 4 ≤ x)%Qc ∧ (x ≤ Qc_of_Z 96)%Qc.
Proof.
  intros Hne Hnn scale.
  destruct (max_rows_finite dom Hne) as (m & Hmax & Hle & e0 & He0 & Hm).
  { intros e He. destruct (Hnn e He) as (q & Hq & _). by exists q. }
  assert (Hm0 : (0 ≤ m)%Qc).
  { destruct (Hnn e0 He0) as (q & Hq & Hq0). rewrite Hm in Hq.
    by injection Hq as ->. }
  split_and!; [apply lollipop_eq| |].
  - destruct (scale_in_box _ m 0 Hmax) as (x & Hx & _); [done..|].
    unfold scale, JS.of_Z at 1. rewrite Qc_of_Z_0.
    destruct (decide (m = 0%Qc)) as [->|Hne0].
    + by apply apply_zero.
    + rewrite (apply_nonzero _ m) by done. rewrite <-Qc_of_Z_0.
      by apply spec_scale_0.
  - intros e He. destruct (Hnn e He) as (q & Hq & Hq0).
    destruct (Hle e He) as (q' & Hq' & Hqm). rewrite Hq in Hq'.
    injection Hq' as <-. unfold scale. rewrite Hq.
    by apply (scale_in_box _ m).
Qed.

Lemma lollipop_dots_in_box_witness :
  rows_2_8_10 ≠ []
  ∧ (∀ e, e ∈ rows_2_8_10 →
          ∃ q, score (DOM.dataset e) = JS.Fin q ∧ (0 ≤ q)%Qc)
  ∧ ∀ e, e ∈ rows_2_8_10 →
      ∃ x, D3.apply (build_scale (map DOM.dataset rows_2_8_10))
             (score (DOM.dataset e)) = JS.Fin x
           ∧ (Qc_of_Z 4 ≤ x)%Qc ∧ (x ≤ Qc_of_Z 96)%Qc.
Proof.
  assert (Hnn : ∀ e, e ∈ rows_2_8_10 →
                     ∃ q, score (DOM.dataset e) = JS.Fin q ∧ (0 ≤ q)%Qc).
  { intros e He. unfold rows_2_8_10 in He.
    repeat (apply elem_of_cons in He as [->|He]);
      [eexists; split; [reflexivity|by apply Z2Qc_inj_le]..|].
    by apply elem_of_nil in He. }
  split; [done|]. split; [exact Hnn|].
  assert (Hne : rows_2_8_10 ≠ []) by done.
  exact (proj2 (proj2 (lollipop_dots_in_box rows_2_8_10 Hne Hnn))).
Defined.

Lemma max_all_NaN {A} (f : A → JS.num) (l : list A) :
  (∀ x, x ∈ l → f x = JS.NaN) → D3.max l f = JS.VUndefined.
Proof.
  induction l as [|x l IH]; intros Hall; [done|].
  cbn [D3.max]. rewrite (Hall x) by (by left). cbn.
  apply IH. intros y Hy. apply Hall. by right.
Qed.

Lemma apply_undefined_max rows (x : JS.num) :
  D3.max rows score = JS.VUndefined →
  D3.apply (build_scale rows) x = JS.NaN.
Proof.
  intros Hmax. rewrite build_scale_eq, Hmax.
  unfold D3.apply, D3.uninterpolateNumber, D3.interpolateNumber. cbn.
  by destruct (JS.sub x (JS.of_Z 0)).
Qed.

(** X10.  When no row has a numeric score (every score coerces to
    not-a-number) the maximum is undefined and nothing gets a position:
    every row still receives its dot and its line, with not-a-number for
    the dot's centre and for both ends of the line. *)
Theorem lollipop_all_NaN (dom : list DOM.Element) :
  (∀ e, e ∈ dom → score (DOM.dataset e) = JS.NaN) →
  D3.max (map DOM.dataset dom) score = JS.VUndefined
  ∧ lollipop {| el := Some dom |} =
      Ok ({| el := Some
               (map (λ e, DOM.appendChild (DOM.appendChild e (dot JS.NaN))
                            (stick JS.NaN JS.NaN)) dom) |},
          evaluations dom).
Proof.
  intros Hall.
  assert (Hmax : D3.max (map DOM.dataset dom) score = JS.VUndefined).
  { apply max_all_NaN. intros d (e & He & <-)%elem_of_map_dataset.
    by apply Hall. }
  split; [done|]. rewrite lollipop_eq. do 4 f_equal.
  apply map_ext. intros e. unfold drawn.
  by rewrite !apply_undefined_max.
Qed.

Lemma lollipop_all_NaN_witness :
  (∀ e, e ∈ rows_all_malformed → score (DOM.dataset e) = JS.NaN)
  ∧ D3.max (map DOM.dataset rows_all_malformed) score = JS.VUndefined
  ∧ lollipop {| el := Some rows_all_malformed |} =
      Ok ({| el := Some
               (map (λ e, DOM.appendChild (DOM.appendChild e (dot JS.NaN))
                            (stick JS.NaN JS.NaN)) rows_all_malformed) |},
          evaluations rows_all_malformed).
Proof.
  assert (Hall : ∀ e, e ∈ rows_all_malformed →
                      score (DOM.dataset e) = JS.NaN).
  { intros e He. unfold rows_all_malformed in He.
    repeat (apply elem_of_cons in He as [->|He]); [reflexivity..|].
    by apply elem_of_nil in He. }
  split; [exact Hall|]. exact (lollipop_all_NaN rows_all_malformed Hall).
Defined.

(** ** The render pass, repeated *)

Lemma pass_eq (dom : list DOM.Element) :
  pass dom = map (drawn (D3.apply (build_scale (map DOM.dataset dom)))) dom.
Proof. unfold pass. by rewrite lollipop_dom_eq. Qed.

Lemma concat_replicate_comm {A} (n : nat) (l : list A) :
  List.concat (replicate n l) ++ l = l ++ List.concat (replicate n l).
Proof.
  induction n as [|n IH]; cbn; [by rewrite app_nil_r|].
  by rewrite <-app_assoc, IH.
Qed.

Lemma drawn_drawn_times (n : nat) scale (e : DOM.Element) :
  drawn scale (drawn_times n scale e) = drawn_times (S n) scale e.
Proof.
  unfold drawn, drawn_times, DOM.appendChild. cbn. f_equal.
  rewrite <-!app_assoc. f_equal.
  change ([dot ?x] ++ [stick ?y ?x]) with [dot x; stick y x].
  apply (concat_replicate_comm n (shapes scale e)).
Qed.

(** X11.  Passes pile up.  After [n] passes over the same row elements each
    row keeps its data and the children it had, followed by [n] copies of
    the same dot and line: every pass finds the same data, builds the same
    scale and adds the same two shapes again. *)
Theorem passes_accumulate (n : nat) (dom : list DOM.Element) :
  let scale := D3.apply (build_scale (map DOM.dataset dom)) in
  Nat.iter n pass dom = map (drawn_times n scale) dom.
Proof.
  intros scale. induction n as [|n IH].
  - cbn. rewrite <-(map_id dom) at 1. apply map_ext. intros [d c].
    unfold drawn_times. cbn. by rewrite app_nil_r.
  - rewrite Nat.iter_succ, IH, pass_eq, !map_map.
    cbn [DOM.dataset drawn_times].
    fold scale. apply map_ext. intros e. apply drawn_drawn_times.
Qed.

(** Two passes over the example rows leave two dots and two lines on each. *)
Example passes_twice_2_10 :
  map (λ e, List.length (DOM.childNodes e)) (Nat.iter 2 pass rows_2_10)
  = [4; 4]%nat.
Proof. by rewrite passes_accumulate. Qed.

(** ** The overlay, shown again *)

Lemma getComponent_add_overlay (panel : Panel.t) (c : Component.t) :
  Component.itemId c = overlay_id →
  Panel.getComponent overlay_id panel = None →
  Panel.getComponent overlay_id (Panel.add c panel) = Some c.
Proof.
  unfold Panel.getComponent, Panel.add. cbn [Panel.items].
  intros Hid. induction (Panel.items panel) as [|x l IH]; cbn.
  - by rewrite bool_decide_eq_true_2.
  - destruct (bool_decide (Component.itemId x = overlay_id)); [done|]. apply IH.
Qed.

(** X13.  Showing the overlay is idempotent: once a call has succeeded, a
    further call, with any button, changes nothing, so a panel never gets a
    second overlay from this handler. *)
Theorem showFrequentWordsOverlay_idempotent (panel panel' : Panel.t)
    (button button' : JS.value) :
  showFrequentWordsOverlay panel button = Ok panel' →
  showFrequentWordsOverlay panel' button' = Ok panel'.
Proof.
  unfold showFrequentWordsOverlay. fold overlay_id.
  destruct (Panel.getComponent overlay_id panel) as [c|] eqn:Hget.
  - intros [= <-]. by rewrite Hget.
  - destruct (Panel.el panel) as [e|]; [|done]. intros [= <-].
    by rewrite getComponent_add_overlay.
Qed.

Lemma showFrequentWordsOverlay_idempotent_witness :
  showFrequentWordsOverlay bare_panel JS.VNull = Ok panel_with_overlay
  ∧ showFrequentWordsOverlay panel_with_overlay (JS.VString "button-1")
    = Ok panel_with_overlay.
Proof.
  assert (H : showFrequentWordsOverlay bare_panel JS.VNull
              = Ok panel_with_overlay) by reflexivity.
  split; [exact H|].
  exact (showFrequentWordsOverlay_idempotent bare_panel panel_with_overlay
           JS.VNull (JS.VString "button-1") H).
Defined.

(** X14.  The handler fails in one case only: it throws exactly when the
    panel holds no overlay yet and has not been rendered.  A panel that
    already holds its overlay is safe even unrendered. *)
Theorem showFrequentWordsOverlay_throws (panel : Panel.t) (button : JS.value) :
  showFrequentWordsOverlay panel button = Throw TypeError
  ↔ (∀ c, c ∈ Panel.items panel → Component.itemId c ≠ overlay_id)
    ∧ Panel.el panel = None.
Proof.
  unfold showFrequentWordsOverlay. fold overlay_id. split.
  - destruct (Panel.getComponent overlay_id panel) as [c|] eqn:Hget; [done|].
    destruct (Panel.el panel); [done|]. intros _.
    split; [by apply getComponent_None|done].
  - intros [Hnone ->].
    destruct (Panel.getComponent overlay_id panel) as [c|] eqn:Hget; [|done].
    apply find_some in Hget as [Hin Hid%bool_decide_eq_true].
    by destruct (Hnone c (proj2 (list_elem_of_In _ _) Hin)).
Qed.

Example showFrequentWordsOverlay_unrendered :
  showFrequentWordsOverlay unrendered_panel JS.VNull = Throw TypeError.
Proof. reflexivity. Qed.





(** ** The slice loader, called again *)

Lemma getFrequentWordForSlice_new_slice (env : Env) (panel : Panel.t)
    (formValues : FormValues.t) :
  LayoutPanelModel.isSameSlice (Panel.getLayoutPanelModel panel) = false →
  getFrequentWordForSlice env panel formValues =
  let model := Panel.getLayoutPanelModel panel in
  let params := slice_params env formValues in
  {| Panel.id := Panel.id panel; Panel.el := Panel.el panel;
     Panel.items := Panel.items panel;
     Panel.formValues :=
       Some (default formValues (Panel.formValues panel));
     Panel.getLayoutPanelModel :=
       {| LayoutPanelModel.isSameSlice := false;
          LayoutPanelModel.NStore :=
            Store.load params (LayoutPanelModel.NStore model);
          LayoutPanelModel.VStore :=
            Store.load params (LayoutPanelModel.VStore model);
          LayoutPanelModel.JStore :=
            Store.load params (LayoutPanelModel.JStore model);
          LayoutPanelModel.getPhrasesStore :=
            LayoutPanelModel.getPhrasesStore model |} |}.
Proof.
  intros Hnew. unfold getFrequentWordForSlice, slice_params, Ext_apply.
  rewrite Hnew. cbn.
  by destruct (Panel.formValues panel),
       (FormValues.search formValues) as [[|first rest]|].
Qed.

(** X16.  The panel remembers the first query, the stores are loaded with
    the latest.  After two calls on a new slice, starting from a panel
    without form values, [panel.formValues] is the first call's argument,
    while each of the three stores has got two loads, the second with the
    second call's parameters. *)
Theorem getFrequentWordForSlice_twice (env : Env) (panel : Panel.t)
    (first second : FormValues.t) :
  Panel.formValues panel = None →
  LayoutPanelModel.isSameSlice (Panel.getLayoutPanelModel panel) = false →
  let model := Panel.getLayoutPanelModel panel in
  let panel'' :=
    getFrequentWordForSlice env
      (getFrequentWordForSlice env panel first) second in
  let model'' := Panel.getLayoutPanelModel panel'' in
  let requests := [slice_params env first; slice_params env second] in
  Panel.formValues panel'' = Some first
  ∧ Store.loads (LayoutPanelModel.NStore model'') =
      Store.loads (LayoutPanelModel.NStore model) ++ requests
  ∧ Store.loads (LayoutPanelModel.VStore model'') =
      Store.loads (LayoutPanelModel.VStore model) ++ requests
  ∧ Store.loads (LayoutPanelModel.JStore model'') =
      Store.loads (LayoutPanelModel.JStore model) ++ requests
  ∧ Store.loads (LayoutPanelModel.getPhrasesStore model'') =
      Store.loads (LayoutPanelModel.getPhrasesStore model).
Proof.
  intros Hnone Hnew model panel'' model'' requests.
  unfold model'', panel''.
  rewrite (getFrequentWordForSlice_new_slice env panel first Hnew).
  rewrite getFrequentWordForSlice_new_slice by done.
  cbn. rewrite Hnone. cbn. unfold requests.
  by rewrite <-!app_assoc.
Qed.

Lemma getFrequentWordForSlice_twice_witness :
  Panel.formValues bare_panel = None
  ∧ LayoutPanelModel.isSameSlice (Panel.getLayoutPanelModel bare_panel)
    = false
  ∧ Panel.formValues
      (getFrequentWordForSlice some_env
         (getFrequentWordForSlice some_env bare_panel some_query)
         other_query)
    = Some some_query.
Proof.
  split; [reflexivity|]. split; [reflexivity|].
  exact (proj1 (getFrequentWordForSlice_twice some_env bare_panel
                  some_query other_query eq_refl eq_refl)).
Defined.

(** X17.  What a load is asked for.  On a new slice the parameters of the
    load hold, for every key, the value of the first search term if it has
    the key, else the value of the serialized query if that has it, else
    the instance and the user; later search terms are never sent. *)
Theorem getFrequentWordForSlice_params (env : Env) (panel : Panel.t)
    (formValues : FormValues.t) :
  LayoutPanelModel.isSameSlice (Panel.getLayoutPanelModel panel) = false →
  ∃ params : gmap string JS.value,
    Store.loads
      (LayoutPanelModel.NStore
         (Panel.getLayoutPanelModel
            (getFrequentWordForSlice env panel formValues)))
    = Store.loads (LayoutPanelModel.NStore (Panel.getLayoutPanelModel panel))
      ++ [params]
    ∧ ∀ k : string,
        params !! k =
        match first_search formValues !! k with
        | Some v => Some v
        | None =>
            match FormValues.serialize formValues !! k with
            | Some v => Some v
            | None =>
                if bool_decide (k = "instance") then Some (getInstance env)
                else if bool_decide (k = "user") then Some (getUsername env)
                else None
            end
        end.
Proof.
  intros Hnew. exists (slice_params env formValues).
  rewrite getFrequentWordForSlice_new_slice by done. split; [done|].
  intros k. unfold slice_params, first_search.
  assert (Hbase : ∀ base : gmap string JS.value,
            base = {[ "instance" := getInstance env;
                      "user" := getUsername env ]} →
            base !! k =
            if bool_decide (k = "instance") then Some (getInstance env)
            else if bool_decide (k = "user") then Some (getUsername env)
            else None).
  { intros base ->. rewrite lookup_insert.
    case_decide as Hi; [subst; by rewrite bool_decide_eq_true_2|].
    rewrite bool_decide_eq_false_2 by done. rewrite lookup_singleton.
    case_decide as Hu; [subst; by rewrite bool_decide_eq_true_2|].
    by rewrite bool_decide_eq_false_2. }
  destruct (FormValues.search formValues) as [[|first rest]|];
    rewrite ?lookup_empty, !lookup_union, (Hbase _ eq_refl).
  all: repeat (destruct (_ !! k)); try done.
  all: by repeat (destruct (bool_decide _)).
Qed.

Lemma getFrequentWordForSlice_params_witness :
  LayoutPanelModel.isSameSlice (Panel.getLayoutPanelModel bare_panel) = false
  ∧ ∃ params : gmap string JS.value,
      Store.loads
        (LayoutPanelModel.NStore
           (Panel.getLayoutPanelModel
              (getFrequentWordForSlice some_env bare_panel some_query)))
      = Store.loads
          (LayoutPanelModel.NStore (Panel.getLayoutPanelModel bare_panel))
        ++ [params]
      ∧ ∀ k : string,
          params !! k =
          match first_search some_query !! k with
          | Some v => Some v
          | None =>
              match FormValues.serialize some_query !! k with
              | Some v => Some v
              | None =>
                  if bool_decide (k = "instance")
                  then Some (getInstance some_env)
                  else if bool_decide (k = "user")
                       then Some (getUsername some_env)
                       else None
              end
          end.
Proof.
  split; [reflexivity|].
  exact (getFrequentWordForSlice_params some_env bare_panel some_query
           eq_refl).
Defined.
